(** * Buffer pool manager of rdbms-training (src/buffer.rs)

    Shallow embedding of [BufferPool::evict] (clock sweep with an
    [Rc]-count pin check) and [BufferPoolManager::fetch_page].

    Modelling choices, following the Rust code:
    - [PageId(u64)] and [BufferId(usize)] are [nat]; the page table
      [HashMap<PageId, BufferId>] is a [gmap nat nat].
    - [Frame.usage_count : u64] is an [N] below [2^64]; [+= 1] is checked
      arithmetic (the overflow panic of a debug build), [-= 1] only runs
      when the count is non-zero.
    - The [Rc<Buffer>] of a frame is never replaced: the pool mutates it in
      place through [Rc::get_mut].  A handle handed out by [fetch_page] is
      therefore named by the index of its frame, and the frame records
      [rc], the number of live references to its cell (the pool's own one
      included; weak references, which also make [Rc::get_mut] fail, are
      counted in it too).  [Rc::get_mut(..).is_some()] is [rc = 1].
    - The disk collaborator ([crate::disk::DiskManager], not part of
      src/) is left abstract: any state type with a read and a write that
      may fail.  [read_page_data] writes into the [&mut] page it is given,
      so it returns the page as it left it, also on failure.
    - Out-of-range indexing and [unwrap] on [None] panic: [FPanic].
    - [Rc::clone] aborts the process when the strong count is already
      [usize::MAX] (a 64-bit target): [FAbort] for the clone in
      [fetch_page]; a caller's clone at that count has no next state. *)

From Stdlib Require Import Init.Byte NArith.
From stdpp Require Import base list gmap.

(* ------------------------------------------------------------------ *)
(** ** Data model *)

Definition u64_max : N := 2 ^ 64 - 1.

(** [usize::MAX] on a 64-bit target. *)
Definition usize_max : N := 2 ^ 64 - 1.

(** [pub type Page = [u8; PAGE_SIZE]] *)
Definition Page := list byte.

(** [pub struct Buffer] *)
Record Buffer := mkBuffer {
  page_id : nat;
  page : Page;
  is_dirty : bool;
}.

(** [pub struct Frame]; [rc] is the reference count of [buffer: Rc<Buffer>]. *)
Record Frame := mkFrame {
  usage_count : N;
  buffer : Buffer;
  rc : nat;
}.

(** [pub struct BufferPool] *)
Record BufferPool := mkBufferPool {
  buffers : list Frame;
  next_victim_id : nat;
}.

(** [Rc::get_mut(&mut frame.buffer).is_some()] *)
Definition get_mut_is_some (fr : Frame) : bool := Nat.eqb (rc fr) 1.

(** The strong count of the frame's [Rc] is [usize::MAX]: one more
    [Rc::clone] aborts. *)
Definition rc_at_max (fr : Frame) : bool := N.eqb (N.of_nat (rc fr)) usize_max.

Definition set_usage_count (fr : Frame) (n : N) : Frame :=
  mkFrame n (buffer fr) (rc fr).

Definition set_buffer (fr : Frame) (b : Buffer) : Frame :=
  mkFrame (usage_count fr) b (rc fr).

Definition set_rc (fr : Frame) (n : nat) : Frame :=
  mkFrame (usage_count fr) (buffer fr) n.

Definition set_buffers (p : BufferPool) (l : list Frame) : BufferPool :=
  mkBufferPool l (next_victim_id p).

Definition set_next_victim_id (p : BufferPool) (i : nat) : BufferPool :=
  mkBufferPool (buffers p) i.

(** [fn size(&self) -> usize] *)
Definition size (p : BufferPool) : nat := length (buffers p).

(** [fn increment_id]: [(buffer_id.0 + 1) % self.size()] *)
Definition increment_id (p : BufferPool) (i : nat) : nat :=
  (i + 1) mod size p.

(* ------------------------------------------------------------------ *)
(** ** [BufferPool::evict] *)

(** What one turn of the [loop] body of [evict] does, from the cursor
    frame and the [consecutive_pinned] counter. *)
Inductive evict_result :=
  | EVictim (b : nat) (p : BufferPool)   (** [break]: [Some(victim_id)] *)
  | ENone (p : BufferPool)               (** [return None] *)
  | EPanic                               (** out-of-range index *)
  | EFuel.                               (** still looping *)

Inductive step_result :=
  | Done (r : evict_result)
  | Continue (consecutive_pinned : nat) (p : BufferPool).

(** One iteration of the [loop] of [evict]. *)
Definition evict_step (consecutive_pinned : nat) (p : BufferPool) : step_result :=
  let pool_size := size p in
  let i := next_victim_id p in
  match buffers p !! i with
  | None => Done EPanic
  | Some frame =>
      if N.eqb (usage_count frame) 0 then Done (EVictim i p)
      else if get_mut_is_some frame then
        (* frame.usage_count -= 1; consecutive_pinned = 0; *)
        let p1 := set_buffers p
                    (<[i := set_usage_count frame (usage_count frame - 1)]> (buffers p)) in
        Continue 0 (set_next_victim_id p1 (increment_id p1 i))
      else
        let c := consecutive_pinned + 1 in
        if Nat.leb pool_size c then Done (ENone p)
        else Continue c (set_next_victim_id p (increment_id p i))
  end.

(** The [loop], run for at most [fuel] iterations ([EFuel] when the fuel is
    used up). *)
Fixpoint evict_loop (fuel : nat) (consecutive_pinned : nat) (p : BufferPool)
  : evict_result :=
  match fuel with
  | O => EFuel
  | S f =>
      match evict_step consecutive_pinned p with
      | Done r => r
      | Continue c p' => evict_loop f c p'
      end
  end.

Definition sum_usage (l : list Frame) : nat :=
  fold_right (fun fr acc => N.to_nat (usage_count fr) + acc) 0 l.

(** A bound on the iterations of the loop: every unpinned step lowers the
    sum of the usage counts, and fewer than [size] pinned steps come in a
    row.  The termination theorem shows the loop ends within it. *)
Definition evict_fuel (p : BufferPool) : nat :=
  sum_usage (buffers p) * (size p + 1) + size p + 1.

(** [fn evict(&mut self) -> Option<BufferId>] *)
Definition evict (p : BufferPool) : evict_result :=
  evict_loop (evict_fuel p) 0 p.

(* ------------------------------------------------------------------ *)
(** ** The disk collaborator and [BufferPoolManager::fetch_page] *)

(** [std::io::Error], kept abstract as an error code. *)
Definition io_error := nat.

Inductive io_result :=
  | IoOk
  | IoErr (e : io_error).

(** [pub enum Error] *)
Inductive Error :=
  | Io (e : io_error)
  | NoFreeBuffer.

(** The block I/O a call performs, in order. *)
Inductive io_event :=
  | IoWrite (pid : nat) (bytes : Page)
  | IoRead (pid : nat).

(** The two operations of [DiskManager] that [fetch_page] calls. *)
Record DiskOps (D : Type) := {
  write_page_data : D -> nat -> Page -> D * io_result;
  read_page_data : D -> nat -> Page -> D * Page * io_result;
}.
Arguments write_page_data {D} _ _ _ _.
Arguments read_page_data {D} _ _ _ _.

(** [pub struct BufferPoolManager] *)
Record BufferPoolManager (D : Type) := mkManager {
  disk : D;
  pool : BufferPool;
  page_table : gmap nat nat;
}.
Arguments mkManager {D} _ _ _.
Arguments disk {D} _.
Arguments pool {D} _.
Arguments page_table {D} _.

(** Result of [fetch_page]: the returned [Rc<Buffer>] is named by its frame
    index; the manager after the call and the I/O performed come along. *)
Inductive fetch_out (D : Type) :=
  | FOk (h : nat) (m : BufferPoolManager D) (ios : list io_event)
  | FErr (e : Error) (m : BufferPoolManager D) (ios : list io_event)
  | FPanic
  | FAbort
  | FLoop.
Arguments FOk {D} _ _ _.
Arguments FErr {D} _ _ _.
Arguments FPanic {D}.
Arguments FAbort {D}.
Arguments FLoop {D}.

Definition fetch_ios {D} (r : fetch_out D) : list io_event :=
  match r with
  | FOk _ _ ios | FErr _ _ ios => ios
  | _ => []
  end.

Section Manager.
Context {D : Type} (dm : DiskOps D).

(** [self.pool[buffer_id] = frame] *)
Definition update_frame (p : BufferPool) (b : nat) (fr : Frame) : BufferPool :=
  set_buffers p (<[b := fr]> (buffers p)).

(** [fn fetch_page(&mut self, page_id: PageId) -> Result<Rc<Buffer>, Error>] *)
Definition fetch_page (m : BufferPoolManager D) (pid : nat) : fetch_out D :=
  match page_table m !! pid with
  | Some buffer_id =>
      (* hit: frame.usage_count += 1; Ok(frame.buffer.clone()) *)
      match buffers (pool m) !! buffer_id with
      | None => FPanic
      | Some frame =>
          if N.leb u64_max (usage_count frame) then FPanic
          else if rc_at_max frame then FAbort
          else
            let frame' := mkFrame (usage_count frame + 1) (buffer frame) (S (rc frame)) in
            FOk buffer_id (mkManager (disk m) (update_frame (pool m) buffer_id frame')
                                     (page_table m)) []
      end
  | None =>
      match evict (pool m) with
      | EPanic => FPanic
      | EFuel => FLoop
      | ENone p1 => FErr NoFreeBuffer (mkManager (disk m) p1 (page_table m)) []
      | EVictim buffer_id p1 =>
          match buffers p1 !! buffer_id with
          | None => FPanic
          | Some frame =>
              let evict_page_id := page_id (buffer frame) in
              (* Rc::get_mut(&mut frame.buffer).unwrap() *)
              if negb (get_mut_is_some frame) then FPanic
              else
                let buf := buffer frame in
                (* if buffer.is_dirty.get() { write_page_data(..)? } *)
                let '(d1, wres, ios1) :=
                  if is_dirty buf then
                    let '(d1, r) := write_page_data dm (disk m) evict_page_id (page buf) in
                    (d1, r, [IoWrite evict_page_id (page buf)])
                  else (disk m, IoOk, []) in
                match wres with
                | IoErr e => FErr (Io e) (mkManager d1 p1 (page_table m)) ios1
                | IoOk =>
                    (* buffer.page_id = page_id; buffer.is_dirty.set(false); *)
                    let '(d2, newpage, rres) := read_page_data dm d1 pid (page buf) in
                    let buf' := mkBuffer pid newpage false in
                    let ios2 := ios1 ++ [IoRead pid] in
                    match rres with
                    | IoErr e =>
                        FErr (Io e)
                             (mkManager d2 (update_frame p1 buffer_id (set_buffer frame buf'))
                                        (page_table m)) ios2
                    | IoOk =>
                        (* frame.usage_count = 1; Rc::clone (the count is 1 here,
                           as Rc::get_mut succeeded, so it cannot abort);
                           table remove, insert *)
                        let frame' := mkFrame 1 buf' (S (rc frame)) in
                        FOk buffer_id
                            (mkManager d2 (update_frame p1 buffer_id frame')
                                       (<[pid := buffer_id]> (delete evict_page_id (page_table m))))
                            ios2
                    end
                end
          end
      end
  end.

End Manager.

(* ------------------------------------------------------------------ *)
(** ** Invariants and reachable states *)

(** A frame's count after a sweep: same buffer and reference count, usage
    count never higher, and untouched when the frame is pinned. *)
Definition swept (fr fr' : Frame) : Prop :=
  buffer fr' = buffer fr /\ rc fr' = rc fr /\
  (usage_count fr' <= usage_count fr)%N /\
  (get_mut_is_some fr = false -> usage_count fr' = usage_count fr).

(** Every pinned frame has a positive usage count. *)
Definition pin_inv (p : BufferPool) : Prop :=
  forall i fr, buffers p !! i = Some fr ->
    get_mut_is_some fr = false -> usage_count fr <> 0%N.

(** The page-table invariant of the spec: each entry names the frame holding
    the page, and no two pages share a frame. *)
Definition table_inv {D} (m : BufferPoolManager D) : Prop :=
  (forall p b, page_table m !! p = Some b ->
     exists fr, buffers (pool m) !! b = Some fr /\ page_id (buffer fr) = p) /\
  (forall p q b, page_table m !! p = Some b -> page_table m !! q = Some b -> p = q).

(** A freshly built manager: at least one frame, placeholder buffers held
    by the pool alone, cursor at 0, empty page table. *)
Definition init_state {D} (m : BufferPoolManager D) : Prop :=
  0 < size (pool m) /\ next_victim_id (pool m) = 0 /\ page_table m = empty /\
  forall i fr, buffers (pool m) !! i = Some fr ->
    rc fr = 1 /\ (usage_count fr <= u64_max)%N.

(** The shape facts of a pool every reachable manager keeps. *)
Definition pool_good (p : BufferPool) : Prop :=
  0 < size p /\ next_victim_id p < size p /\ pin_inv p /\
  (forall i fr, buffers p !! i = Some fr ->
     1 <= rc fr /\ (usage_count fr <= u64_max)%N).

Definition good_state {D} (m : BufferPoolManager D) : Prop :=
  pool_good (pool m) /\
  (forall p b, page_table m !! p = Some b -> b < size (pool m)).

Definition map_frame {D} (m : BufferPoolManager D) (b : nat) (f : Frame -> Frame)
  : BufferPoolManager D :=
  match buffers (pool m) !! b with
  | Some fr => mkManager (disk m) (update_frame (pool m) b (f fr)) (page_table m)
  | None => m
  end.

Section Reachable.
Context {D : Type} (dm : DiskOps D).

(** Managers reachable from a fresh one by [fetch_page] calls and by what
    callers can do with the [Rc<Buffer>] handles they hold: clone one
    (which returns only below the maximum count), drop one, or set
    [is_dirty] through its [Cell]. *)
Inductive reachable : BufferPoolManager D -> Prop :=
  | reach_init m : init_state m -> reachable m
  | reach_fetch_ok m pid h m' ios :
      reachable m -> fetch_page dm m pid = FOk h m' ios -> reachable m'
  | reach_fetch_err m pid e m' ios :
      reachable m -> fetch_page dm m pid = FErr e m' ios -> reachable m'
  | reach_clone m b fr :
      reachable m -> buffers (pool m) !! b = Some fr -> 1 < rc fr ->
      rc_at_max fr = false ->
      reachable (map_frame m b (fun fr => set_rc fr (S (rc fr))))
  | reach_drop m b fr :
      reachable m -> buffers (pool m) !! b = Some fr -> 1 < rc fr ->
      reachable (map_frame m b (fun fr => set_rc fr (pred (rc fr))))
  | reach_set_dirty m b fr :
      reachable m -> buffers (pool m) !! b = Some fr -> 1 < rc fr ->
      reachable (map_frame m b (fun fr =>
        set_buffer fr (mkBuffer (page_id (buffer fr)) (page (buffer fr)) true))).

(** The runs of those steps, from a manager in which a handle to frame [h]
    was handed out, during which that handle stays alive: a drop on frame
    [h] leaves it and the pool's own reference. *)
Inductive held_after (h : nat) (m : BufferPoolManager D) : BufferPoolManager D -> Prop :=
  | held_now : held_after h m m
  | held_fetch_ok m2 pid h' m3 ios :
      held_after h m m2 -> fetch_page dm m2 pid = FOk h' m3 ios -> held_after h m m3
  | held_fetch_err m2 pid e m3 ios :
      held_after h m m2 -> fetch_page dm m2 pid = FErr e m3 ios -> held_after h m m3
  | held_clone m2 b fr :
      held_after h m m2 -> buffers (pool m2) !! b = Some fr -> 1 < rc fr ->
      rc_at_max fr = false ->
      held_after h m (map_frame m2 b (fun fr => set_rc fr (S (rc fr))))
  | held_drop m2 b fr :
      held_after h m m2 -> buffers (pool m2) !! b = Some fr -> 1 < rc fr ->
      (b = h -> 2 < rc fr) ->
      held_after h m (map_frame m2 b (fun fr => set_rc fr (pred (rc fr))))
  | held_set_dirty m2 b fr :
      held_after h m m2 -> buffers (pool m2) !! b = Some fr -> 1 < rc fr ->
      held_after h m (map_frame m2 b (fun fr =>
        set_buffer fr (mkBuffer (page_id (buffer fr)) (page (buffer fr)) true))).

End Reachable.

(** Frame [h] is held outside the pool and has a positive usage_count. *)
Definition held_inv {D} (h : nat) (m : BufferPoolManager D) : Prop :=
  exists fr, buffers (pool m) !! h = Some fr /\ 1 < rc fr /\ usage_count fr <> 0%N.

(* ------------------------------------------------------------------ *)
(** ** Test disks and pools *)

(** A disk on which every read and write succeeds; a read leaves the
    bytes of the buffer as they were. *)
Definition ok_disk : DiskOps unit :=
  {| write_page_data := fun d _ _ => (d, IoOk);
     read_page_data := fun d _ pg => (d, pg, IoOk) |}.

(** A disk on which every read fails with error code 5; writes succeed. *)
Definition read_fail_disk : DiskOps unit :=
  {| write_page_data := fun d _ _ => (d, IoOk);
     read_page_data := fun d _ pg => (d, pg, IoErr 5) |}.

Definition test_page : Page := [x01; x02; x03; x04].

Definition frame_of (usage : N) (pid : nat) (dirty : bool) (refs : nat) : Frame :=
  mkFrame usage (mkBuffer pid test_page dirty) refs.

(** One frame holding page [0] with the given usage and reference counts,
    page [0] in the table. *)
Definition one_frame_manager (usage : N) (refs : nat) : BufferPoolManager unit :=
  mkManager tt (mkBufferPool [frame_of usage 0 false refs] 0) {[0 := 0]}.

(** A disk on which every write fails with error code 7; reads succeed. *)
Definition write_fail_disk : DiskOps unit :=
  {| write_page_data := fun d _ _ => (d, IoErr 7);
     read_page_data := fun d _ pg => (d, pg, IoOk) |}.

(** One free frame holding page [0], nothing in the page table. *)
Definition single_frame_fresh : BufferPoolManager unit :=
  mkManager tt (mkBufferPool [frame_of 0 0 false 1] 0) empty.

(** The same manager once page [7] has been read into the frame. *)
Definition single_frame_loaded : BufferPoolManager unit :=
  mkManager tt (mkBufferPool [mkFrame 1 (mkBuffer 7 test_page false) 2] 0) {[7 := 0]}.

(** Two frames, both held outside the pool with positive counts; pages
    [0] and [1] in the table. *)
Definition pinned_pair_manager : BufferPoolManager unit :=
  mkManager tt (mkBufferPool [frame_of 1 0 false 2; frame_of 3 1 true 2] 1)
            (<[0 := 0]> (<[1 := 1]> empty)).

(** One free frame holding a dirty page [0], page [0] in the table. *)
Definition dirty_single_manager : BufferPoolManager unit :=
  mkManager tt (mkBufferPool [frame_of 0 0 true 1] 0) {[0 := 0]}.

(** What [evict] reads of a frame: its usage_count and whether its [Rc]
    is shared. *)
Definition frame_shape (fr : Frame) : N * nat := (usage_count fr, rc fr).

(** Two pools that differ at most in the buffers' page ids, bytes and
    dirty flags. *)
Definition same_shape (p q : BufferPool) : Prop :=
  frame_shape <$> buffers p = frame_shape <$> buffers q /\
  next_victim_id p = next_victim_id q.

Definition same_result (r1 r2 : evict_result) : Prop :=
  match r1, r2 with
  | EVictim b p, EVictim b' q => b = b' /\ same_shape p q
  | ENone p, ENone q => same_shape p q
  | EPanic, EPanic | EFuel, EFuel => True
  | _, _ => False
  end.

(** Two free frames holding pages [0] and [1], nothing in the table. *)
Definition two_frame_fresh : BufferPoolManager unit :=
  mkManager tt (mkBufferPool [frame_of 0 0 false 1; frame_of 0 1 false 1] 0) empty.

(** The same manager once page [7] has been read into frame [0]. *)
Definition two_frame_loaded : BufferPoolManager unit :=
  mkManager tt (mkBufferPool [mkFrame 1 (mkBuffer 7 test_page false) 2;
                              frame_of 0 1 false 1] 0) {[7 := 0]}.

(** The same manager after a second fetch of page [7], whose handle is also
    held. *)
Definition two_frame_hit : BufferPoolManager unit :=
  mkManager tt (mkBufferPool [mkFrame 2 (mkBuffer 7 test_page false) 3;
                              frame_of 0 1 false 1] 0) {[7 := 0]}.

(* ------------------------------------------------------------------ *)
(** ** The unit test [test_evict] *)

(** [fn create_buffer_pool() -> BufferPool] of the test module, for a
    given [PAGE_SIZE]. *)
Definition create_buffer_pool (page_size : nat) : BufferPool :=
  mkBufferPool
    [mkFrame 0 (mkBuffer 0 (repeat x00 page_size) false) 1;
     mkFrame 0 (mkBuffer 1 (repeat x00 page_size) false) 1] 0.

(** [pool[id].usage_count = n] *)
Definition set_usage_at (p : BufferPool) (b : nat) (n : N) : BufferPool :=
  match buffers p !! b with
  | Some fr => update_frame p b (set_usage_count fr n)
  | None => p
  end.

(** [let _ = Rc::clone(&mut pool[id].buffer);]: the clone is bound to [_],
    so it is dropped at the end of the statement and the count goes back. *)
Definition clone_discarded_at (p : BufferPool) (b : nat) : BufferPool :=
  match buffers p !! b with
  | Some fr => update_frame p b (set_rc (set_rc fr (S (rc fr))) (pred (S (rc fr))))
  | None => p
  end.

(** The [Option<BufferId>] an [evict] call returns ([None] at the outer
    level when it panics or does not return). *)
Definition evict_answer (r : evict_result) : option (option nat) :=
  match r with
  | EVictim b _ => Some (Some b)
  | ENone _ => Some None
  | _ => None
  end.

Definition evict_after (r : evict_result) (p : BufferPool) : BufferPool :=
  match r with
  | EVictim _ p' | ENone p' => p'
  | _ => p
  end.

(** The four [evict] calls of [fn test_evict()], with the statements
    between them, and what each returns. *)
Definition test_evict_run (page_size : nat) : list (option (option nat)) :=
  let p0 := create_buffer_pool page_size in
  let r1 := evict p0 in
  let p1 := set_usage_at (clone_discarded_at (evict_after r1 p0) 0) 0 1 in
  let r2 := evict p1 in
  let p2 := set_usage_at (clone_discarded_at (evict_after r2 p1) 1) 1 1 in
  let r3 := evict p2 in
  let p3 := clone_discarded_at (evict_after r3 p2) 1 in
  let r4 := evict p3 in
  [evict_answer r1; evict_answer r2; evict_answer r3; evict_answer r4].

(** What the four [assert_eq!]s of [fn test_evict()] expect. *)
Definition test_evict_expected : list (option (option nat)) :=
  [Some (Some 0); Some (Some 1); Some None; Some (Some 0)].

(* ------------------------------------------------------------------ *)
(** ** Lemmas on [evict] *)

Lemma swept_refl fr : swept fr fr.
Proof. unfold swept; repeat split; lia. Qed.

Lemma swept_trans a b c : swept a b -> swept b c -> swept a c.
Proof.
  unfold swept, get_mut_is_some. intros (Hb1 & Hr1 & Hu1 & Hp1) (Hb2 & Hr2 & Hu2 & Hp2).
  repeat split; try congruence; try lia.
  intros Hg. rewrite Hp2 by (rewrite Hr1; exact Hg). auto.
Qed.

Lemma Forall2_swept_refl (l : list Frame) : Forall2 swept l l.
Proof. induction l; constructor; auto using swept_refl. Qed.

Lemma Forall2_swept_trans (l1 l2 l3 : list Frame) :
  Forall2 swept l1 l2 -> Forall2 swept l2 l3 -> Forall2 swept l1 l3.
Proof.
  intros H12. revert l3. induction H12; intros l3 H23; inversion H23; subst;
    constructor; eauto using swept_trans.
Qed.

Lemma sum_usage_insert (l : list Frame) i fr x :
  l !! i = Some fr ->
  sum_usage (<[i := x]> l) + N.to_nat (usage_count fr) =
  sum_usage l + N.to_nat (usage_count x).
Proof.
  revert i. induction l as [|y l IH]; intros [|i] H; simpl in *; try discriminate.
  - injection H as ->. lia.
  - specialize (IH i H). lia.
Qed.

(** The three outcomes of one turn of the loop. *)
Lemma evict_step_spec c p fr :
  buffers p !! next_victim_id p = Some fr ->
  evict_step c p =
  if N.eqb (usage_count fr) 0 then Done (EVictim (next_victim_id p) p)
  else if get_mut_is_some fr then
    Continue 0 (mkBufferPool
                  (<[next_victim_id p := set_usage_count fr (usage_count fr - 1)]> (buffers p))
                  ((next_victim_id p + 1) mod size p))
  else if Nat.leb (size p) (c + 1) then Done (ENone p)
  else Continue (c + 1) (mkBufferPool (buffers p) ((next_victim_id p + 1) mod size p)).
Proof.
  intros H. unfold evict_step. rewrite H.
  destruct (N.eqb _ _); [reflexivity|].
  destruct (get_mut_is_some fr); [|reflexivity].
  unfold increment_id, size, set_buffers, set_next_victim_id; simpl.
  rewrite length_insert. reflexivity.
Qed.

Lemma evict_step_continue c p c' p' :
  evict_step c p = Continue c' p' ->
  Forall2 swept (buffers p) (buffers p') /\ size p' = size p /\
  next_victim_id p' < size p' /\ c' < size p' /\
  (c' = 0 /\ S (sum_usage (buffers p')) = sum_usage (buffers p) \/
   c' = c + 1 /\ sum_usage (buffers p') = sum_usage (buffers p)).
Proof.
  unfold evict_step. destruct (buffers p !! next_victim_id p) as [fr|] eqn:Hfr;
    [|discriminate].
  assert (Hlt : next_victim_id p < size p).
  { apply lookup_lt_Some in Hfr. exact Hfr. }
  destruct (N.eqb (usage_count fr) 0) eqn:Hu; [discriminate|].
  apply N.eqb_neq in Hu.
  destruct (get_mut_is_some fr) eqn:Hg.
  - intros Hc. injection Hc as <- <-.
    unfold set_next_victim_id, set_buffers, increment_id, size in *; simpl.
    rewrite !length_insert. repeat split.
    + rewrite <- (list_insert_id (buffers p) (next_victim_id p) fr) at 1 by exact Hfr.
      apply Forall2_insert; [apply Forall2_swept_refl|].
      unfold swept, set_usage_count; simpl. rewrite Hg. repeat split; try lia; discriminate.
    + apply Nat.mod_upper_bound. lia.
    + lia.
    + left. split; [reflexivity|].
      pose proof (sum_usage_insert (buffers p) (next_victim_id p) fr
                    (set_usage_count fr (usage_count fr - 1)) Hfr) as Hs.
      simpl in Hs. lia.
  - destruct (Nat.leb (size p) (c + 1)) eqn:Hle; [discriminate|].
    apply Nat.leb_gt in Hle.
    intros Hc. injection Hc as <- <-.
    unfold set_next_victim_id, increment_id, size in *; simpl.
    repeat split.
    + apply Forall2_swept_refl.
    + apply Nat.mod_upper_bound. lia.
    + lia.
    + right. split; reflexivity.
Qed.

Lemma evict_loop_result f c p :
  (forall b p', evict_loop f c p = EVictim b p' ->
     Forall2 swept (buffers p) (buffers p') /\ b = next_victim_id p' /\
     exists fr, buffers p' !! b = Some fr /\ usage_count fr = 0%N) /\
  (forall p', evict_loop f c p = ENone p' ->
     Forall2 swept (buffers p) (buffers p') /\ next_victim_id p' < size p').
Proof.
  revert c p. induction f as [|f IH]; intros c p; simpl; [split; discriminate|].
  destruct (evict_step c p) as [r|c' p'] eqn:Hs.
  - unfold evict_step in Hs.
    destruct (buffers p !! next_victim_id p) as [fr|] eqn:Hfr;
      [|injection Hs as <-; split; discriminate].
    destruct (N.eqb (usage_count fr) 0) eqn:Hu.
    + injection Hs as <-. split; [|discriminate].
      intros b p' Hv. injection Hv as <- <-.
      split; [apply Forall2_swept_refl|]. split; [reflexivity|].
      exists fr. split; [exact Hfr|]. apply N.eqb_eq. exact Hu.
    + destruct (get_mut_is_some fr); [discriminate|].
      destruct (Nat.leb _ _); [|discriminate].
      injection Hs as <-. split; [discriminate|].
      intros p' Hn. injection Hn as <-. split; [apply Forall2_swept_refl|].
      apply lookup_lt_Some in Hfr. exact Hfr.
  - destruct (evict_step_continue c p c' p' Hs) as (Hsw & _).
    destruct (IH c' p') as [IHv IHn]. split.
    + intros b q Hv. destruct (IHv b q Hv) as (Hq & Hb & Hfr).
      split; [eapply Forall2_swept_trans; eauto|]. auto.
    + intros q Hn. destruct (IHn q Hn) as [Hq Hc].
      split; [eapply Forall2_swept_trans; eauto|exact Hc].
Qed.

Lemma evict_loop_terminates f c p :
  0 < size p -> next_victim_id p < size p -> c < size p ->
  sum_usage (buffers p) * (size p + 1) + (size p - c) < f ->
  evict_loop f c p <> EFuel /\ evict_loop f c p <> EPanic.
Proof.
  revert c p. induction f as [|f IH]; intros c p Hn Hcur Hc Hf; [lia|].
  simpl. destruct (evict_step c p) as [r|c' p'] eqn:Hs.
  - unfold evict_step in Hs.
    destruct (lookup_lt_is_Some_2 (buffers p) (next_victim_id p) Hcur) as [fr Hfr].
    rewrite Hfr in Hs.
    destruct (N.eqb _ _); [injection Hs as <-; split; discriminate|].
    destruct (get_mut_is_some fr); [discriminate|].
    destruct (Nat.leb _ _); [|discriminate].
    injection Hs as <-. split; discriminate.
  - destruct (evict_step_continue c p c' p' Hs) as (_ & Hsz & Hcur' & Hc' & Hsum).
    apply IH; try lia.
Qed.

(** When every frame is pinned with a positive count, the sweep only moves
    the cursor and counts pinned observations until it gives up. *)
Lemma evict_loop_saturated f c p :
  next_victim_id p < size p -> c < size p -> size p - c <= f ->
  (forall i fr, buffers p !! i = Some fr ->
     get_mut_is_some fr = false /\ usage_count fr <> 0%N) ->
  exists p', evict_loop f c p = ENone p'.
Proof.
  revert c p. induction f as [|f IH]; intros c p Hcur Hc Hf Hall; [lia|].
  simpl.
  destruct (lookup_lt_is_Some_2 (buffers p) (next_victim_id p) Hcur) as [fr Hfr].
  rewrite (evict_step_spec c p fr Hfr).
  destruct (Hall _ _ Hfr) as [Hg Hu].
  rewrite Hg. apply N.eqb_neq in Hu. rewrite Hu.
  destruct (Nat.leb (size p) (c + 1)) eqn:Hle; [eauto|].
  apply Nat.leb_gt in Hle.
  apply IH; unfold size in *; simpl; try lia.
  - apply Nat.mod_upper_bound. lia.
  - exact Hall.
Qed.

Lemma evict_fuel_S p : exists f, evict_fuel p = S f.
Proof. unfold evict_fuel. eexists. rewrite Nat.add_1_r. reflexivity. Qed.

Lemma evict_victim_spec (p : BufferPool) b p' :
  evict p = EVictim b p' ->
  (forall fr, buffers p !! b = Some fr -> 1 < rc fr -> usage_count fr = 0%N) /\
  (pin_inv p -> exists fr, buffers p' !! b = Some fr /\ rc fr = 1).
Proof.
  intros Hev. unfold evict in Hev.
  destruct (proj1 (evict_loop_result (evict_fuel p) 0 p) b p' Hev)
    as (Hsw & _ & fr' & Hfr' & Hu').
  split.
  - intros fr Hfr Hrc.
    destruct (Forall2_lookup_l _ _ _ _ _ Hsw Hfr) as (y & Hy & (_ & _ & _ & Hp)).
    rewrite Hfr' in Hy. injection Hy as <-.
    rewrite <- Hp; [exact Hu'|]. unfold get_mut_is_some. apply Nat.eqb_neq. lia.
  - intros Hinv. exists fr'. split; [exact Hfr'|].
    destruct (Forall2_lookup_r _ _ _ _ _ Hsw Hfr') as (x & Hx & (_ & Hrc & _ & Hp)).
    destruct (get_mut_is_some x) eqn:Hg.
    + unfold get_mut_is_some in Hg. apply Nat.eqb_eq in Hg. congruence.
    + exfalso. apply (Hinv b x Hx Hg). rewrite <- Hp by reflexivity. exact Hu'.
Qed.

(* ------------------------------------------------------------------ *)
(** ** Claims on [evict] *)

(** C2 (as stated: a frame with an outside holder is never returned, even
    at usage_count 0) fails: a pinned frame whose usage_count is 0 is
    returned at once, since the [usage_count == 0] test comes before the
    [Rc::get_mut] check. *)
Lemma C2_pinned_frame_with_zero_count_is_evicted :
  buffers (mkBufferPool [frame_of 0 0 false 2] 0) !! 0 = Some (frame_of 0 0 false 2) /\
  1 < rc (frame_of 0 0 false 2) /\
  evict (mkBufferPool [frame_of 0 0 false 2] 0) =
    EVictim 0 (mkBufferPool [frame_of 0 0 false 2] 0).
Proof. split; [reflexivity|]. split; [cbv; lia|]. vm_compute. reflexivity. Qed.

(** C2 (amended): [evict] returns a frame whose buffer has an outside
    holder only if that frame's usage_count was already 0 when the call
    began; so on a pool where every pinned frame has a positive usage_count
    (the invariant [pin_inv]), the victim's buffer has a single reference. *)
Theorem evict_pinned_victim_had_zero_count (p : BufferPool) b p' :
  evict p = EVictim b p' ->
  (forall fr, buffers p !! b = Some fr -> 1 < rc fr -> usage_count fr = 0%N) /\
  (pin_inv p -> exists fr, buffers p' !! b = Some fr /\ rc fr = 1).
Proof. apply evict_victim_spec. Qed.

Lemma evict_pinned_victim_had_zero_count_witness :
  evict (mkBufferPool [frame_of 1 0 false 2; frame_of 0 1 false 1] 0) =
    EVictim 1 (mkBufferPool [frame_of 1 0 false 2; frame_of 0 1 false 1] 1) /\
  exists fr, buffers (mkBufferPool [frame_of 1 0 false 2; frame_of 0 1 false 1] 1) !! 1
             = Some fr /\ rc fr = 1.
Proof.
  assert (Hev : evict (mkBufferPool [frame_of 1 0 false 2; frame_of 0 1 false 1] 0) =
    EVictim 1 (mkBufferPool [frame_of 1 0 false 2; frame_of 0 1 false 1] 1))
    by (vm_compute; reflexivity).
  split; [exact Hev|].
  apply (proj2 (evict_pinned_victim_had_zero_count _ _ _ Hev)).
  intros [|[|i]] fr Hfr; simpl in Hfr; try discriminate; injection Hfr as <-;
    cbv; congruence.
Defined.

(** C5 (as stated, in particular "if every frame is pinned, evict returns
    None") fails: in a pool where every frame is pinned, a pinned frame
    with usage_count 0 is still returned as the victim. *)
Lemma C5_all_pinned_pool_still_yields_victim :
  (forall i fr, buffers (mkBufferPool [frame_of 1 0 false 2; frame_of 0 1 false 3] 0) !! i
                = Some fr -> get_mut_is_some fr = false) /\
  evict (mkBufferPool [frame_of 1 0 false 2; frame_of 0 1 false 3] 0) =
    EVictim 1 (mkBufferPool [frame_of 1 0 false 2; frame_of 0 1 false 3] 1).
Proof.
  split; [|vm_compute; reflexivity].
  intros [|[|i]] fr H; simpl in H; try discriminate; injection H as <-; reflexivity.
Qed.

(** C5 (amended): on a pool of at least one frame with the cursor in
    range, [evict] terminates without panicking; a returned victim has
    usage_count 0; one turn of the loop returns None exactly when it
    observes a pinned frame with a positive count and the consecutive
    pinned count reaches the pool size; and if every frame is pinned with
    a positive usage_count, [evict] returns None. *)
Theorem evict_terminates (p : BufferPool) :
  0 < size p -> next_victim_id p < size p ->
  (evict p <> EFuel /\ evict p <> EPanic) /\
  (forall b p', evict p = EVictim b p' ->
     exists fr, buffers p' !! b = Some fr /\ usage_count fr = 0%N) /\
  (forall c q r, evict_step c q = Done (ENone r) <->
     r = q /\ exists fr, buffers q !! next_victim_id q = Some fr /\
       usage_count fr <> 0%N /\ get_mut_is_some fr = false /\ size q <= c + 1) /\
  ((forall i fr, buffers p !! i = Some fr ->
      get_mut_is_some fr = false /\ usage_count fr <> 0%N) ->
   exists p', evict p = ENone p').
Proof.
  intros Hn Hcur. split; [|split; [|split]].
  - apply evict_loop_terminates; try assumption. unfold evict_fuel. lia.
  - intros b p' Hev. unfold evict in Hev.
    destruct (proj1 (evict_loop_result (evict_fuel p) 0 p) b p' Hev)
      as (_ & _ & Hfr). exact Hfr.
  - intros c q r. unfold evict_step. split.
    + destruct (buffers q !! next_victim_id q) as [fr|]; [|discriminate].
      destruct (N.eqb (usage_count fr) 0) eqn:Hu; [discriminate|].
      destruct (get_mut_is_some fr) eqn:Hg; [discriminate|].
      destruct (Nat.leb (size q) (c + 1)) eqn:Hle; [|discriminate].
      intros H. injection H as <-. split; [reflexivity|].
      exists fr. apply N.eqb_neq in Hu. apply Nat.leb_le in Hle. auto.
    + intros (-> & fr & Hfr & Hu & Hg & Hle). rewrite Hfr.
      apply N.eqb_neq in Hu. rewrite Hu, Hg.
      apply Nat.leb_le in Hle. rewrite Hle. reflexivity.
  - intros Hall. apply evict_loop_saturated; try assumption; unfold evict_fuel; lia.
Qed.

Lemma evict_terminates_witness :
  (0 < size (mkBufferPool [frame_of 1 0 false 2; frame_of 2 1 false 3] 0) /\
   next_victim_id (mkBufferPool [frame_of 1 0 false 2; frame_of 2 1 false 3] 0) <
     size (mkBufferPool [frame_of 1 0 false 2; frame_of 2 1 false 3] 0)) /\
  evict (mkBufferPool [frame_of 1 0 false 2; frame_of 2 1 false 3] 0) =
    ENone (mkBufferPool [frame_of 1 0 false 2; frame_of 2 1 false 3] 1).
Proof.
  assert (H : 0 < size (mkBufferPool [frame_of 1 0 false 2; frame_of 2 1 false 3] 0) /\
   next_victim_id (mkBufferPool [frame_of 1 0 false 2; frame_of 2 1 false 3] 0) <
     size (mkBufferPool [frame_of 1 0 false 2; frame_of 2 1 false 3] 0))
    by (unfold size; simpl; lia).
  split; [exact H|].
  destruct (evict_terminates _ (proj1 H) (proj2 H)) as (_ & _ & _ & Hsat).
  destruct Hsat as [p' Hp'].
  - intros [|[|i]] fr Hfr; simpl in Hfr; try discriminate; injection Hfr as <-;
      split; cbv; congruence.
  - rewrite Hp'. vm_compute in Hp'. rewrite <- Hp'. reflexivity.
Defined.

(** C8: when the frame under the cursor has usage_count 0, [evict] returns
    the cursor at once, with the pool (counts and cursor) unchanged. *)
Theorem evict_selects_unused_cursor_frame (p : BufferPool) fr :
  buffers p !! next_victim_id p = Some fr -> usage_count fr = 0%N ->
  evict p = EVictim (next_victim_id p) p.
Proof.
  intros Hfr Hu. unfold evict. destruct (evict_fuel_S p) as [f ->].
  simpl. rewrite (evict_step_spec 0 p fr Hfr), Hu. reflexivity.
Qed.

Lemma evict_selects_unused_cursor_frame_witness :
  (mkBufferPool [frame_of 2 0 false 1; frame_of 0 1 true 1] 1).(buffers) !! 1 =
    Some (frame_of 0 1 true 1) /\
  usage_count (frame_of 0 1 true 1) = 0%N /\
  evict (mkBufferPool [frame_of 2 0 false 1; frame_of 0 1 true 1] 1) =
    EVictim 1 (mkBufferPool [frame_of 2 0 false 1; frame_of 0 1 true 1] 1).
Proof.
  split; [reflexivity|]. split; [reflexivity|].
  exact (evict_selects_unused_cursor_frame
           (mkBufferPool [frame_of 2 0 false 1; frame_of 0 1 true 1] 1)
           (frame_of 0 1 true 1) eq_refl eq_refl).
Defined.

(** C9: an unpinned frame under the cursor with usage_count [n > 0] gets
    count [n - 1], [consecutive_pinned] is reset to 0, the cursor moves on
    by one (circularly), and the turn does not select it: the loop
    continues from the updated pool. *)
Theorem evict_second_chance (p : BufferPool) fr n c :
  buffers p !! next_victim_id p = Some fr ->
  usage_count fr = n -> (0 < n)%N -> rc fr = 1 ->
  evict_step c p =
    Continue 0 (mkBufferPool
                  (<[next_victim_id p := set_usage_count fr (n - 1)]> (buffers p))
                  ((next_victim_id p + 1) mod size p)) /\
  forall f, evict_loop (S f) c p =
    evict_loop f 0 (mkBufferPool
                      (<[next_victim_id p := set_usage_count fr (n - 1)]> (buffers p))
                      ((next_victim_id p + 1) mod size p)).
Proof.
  intros Hfr Hu Hn Hrc.
  assert (Hs : evict_step c p =
    Continue 0 (mkBufferPool
                  (<[next_victim_id p := set_usage_count fr (n - 1)]> (buffers p))
                  ((next_victim_id p + 1) mod size p))).
  { rewrite (evict_step_spec c p fr Hfr), Hu.
    destruct (N.eqb_spec n 0) as [->|_]; [lia|].
    unfold get_mut_is_some. rewrite Hrc. reflexivity. }
  split; [exact Hs|]. intros f. simpl. rewrite Hs. reflexivity.
Qed.

Lemma evict_second_chance_witness :
  evict_step 1 (mkBufferPool [frame_of 3 0 false 1; frame_of 1 1 false 2] 0) =
    Continue 0 (mkBufferPool [frame_of 2 0 false 1; frame_of 1 1 false 2] 1).
Proof.
  destruct (evict_second_chance
              (mkBufferPool [frame_of 3 0 false 1; frame_of 1 1 false 2] 0)
              (frame_of 3 0 false 1) 3 1 eq_refl eq_refl ltac:(lia) eq_refl) as [H _].
  rewrite H. reflexivity.
Defined.

(* ------------------------------------------------------------------ *)
(** ** Lemmas on [fetch_page] *)

Lemma update_frame_lookup (p : BufferPool) b x j :
  b < size p ->
  buffers (update_frame p b x) !! j = if decide (j = b) then Some x else buffers p !! j.
Proof.
  intros Hb. unfold update_frame, set_buffers; simpl.
  destruct (decide (j = b)) as [->|Hne].
  - apply list_lookup_insert_eq. exact Hb.
  - apply list_lookup_insert_ne. congruence.
Qed.

Lemma size_update_frame (p : BufferPool) b x : size (update_frame p b x) = size p.
Proof. unfold size, update_frame, set_buffers; simpl. apply length_insert. Qed.

Lemma cursor_update_frame (p : BufferPool) b x :
  next_victim_id (update_frame p b x) = next_victim_id p.
Proof. reflexivity. Qed.

Section FetchLemmas.
Context {D : Type} (dm : DiskOps D).

(** The miss path once a victim [b] with a single reference is found: a
    failed write, or a read after the optional write, that fails or
    succeeds. *)
Lemma fetch_page_miss_cases (m : BufferPoolManager D) pid b p1 fr :
  page_table m !! pid = None -> evict (pool m) = EVictim b p1 ->
  buffers p1 !! b = Some fr -> rc fr = 1 ->
  (is_dirty (buffer fr) = true /\ exists d1 e,
     write_page_data dm (disk m) (page_id (buffer fr)) (page (buffer fr)) = (d1, IoErr e) /\
     fetch_page dm m pid =
       FErr (Io e) (mkManager d1 p1 (page_table m))
            [IoWrite (page_id (buffer fr)) (page (buffer fr))]) \/
  (exists d1 ios1,
     ((is_dirty (buffer fr) = true /\
       write_page_data dm (disk m) (page_id (buffer fr)) (page (buffer fr)) = (d1, IoOk) /\
       ios1 = [IoWrite (page_id (buffer fr)) (page (buffer fr))]) \/
      (is_dirty (buffer fr) = false /\ d1 = disk m /\ ios1 = [])) /\
     exists d2 pg r, read_page_data dm d1 pid (page (buffer fr)) = (d2, pg, r) /\
     ((exists e, r = IoErr e /\
        fetch_page dm m pid =
          FErr (Io e)
               (mkManager d2 (update_frame p1 b (set_buffer fr (mkBuffer pid pg false)))
                          (page_table m))
               (ios1 ++ [IoRead pid])) \/
      (r = IoOk /\
        fetch_page dm m pid =
          FOk b (mkManager d2 (update_frame p1 b (mkFrame 1 (mkBuffer pid pg false) 2))
                           (<[pid := b]> (delete (page_id (buffer fr)) (page_table m))))
              (ios1 ++ [IoRead pid])))).
Proof.
  intros Hpt Hev Hfr Hrc.
  unfold fetch_page. rewrite Hpt, Hev, Hfr.
  unfold get_mut_is_some. rewrite Hrc. simpl negb. cbv iota beta.
  destruct (is_dirty (buffer fr)) eqn:Hd.
  - destruct (write_page_data dm (disk m) (page_id (buffer fr)) (page (buffer fr)))
      as [d1 [|e]] eqn:Hw.
    + right. exists d1, [IoWrite (page_id (buffer fr)) (page (buffer fr))].
      split; [left; auto|].
      destruct (read_page_data dm d1 pid (page (buffer fr))) as [[d2 pg] [|e]] eqn:Hr.
      * exists d2, pg, IoOk. split; [reflexivity|]. right. auto.
      * exists d2, pg, (IoErr e). split; [reflexivity|]. left. eauto.
    + left. split; [reflexivity|]. exists d1, e. auto.
  - right. exists (disk m), []. split; [right; auto|].
    destruct (read_page_data dm (disk m) pid (page (buffer fr))) as [[d2 pg] [|e]] eqn:Hr.
    + exists d2, pg, IoOk. split; [reflexivity|]. right. auto.
    + exists d2, pg, (IoErr e). split; [reflexivity|]. left. eauto.
Qed.

(** The miss path when [evict] finds no victim, or does not return. *)
Lemma fetch_page_miss_other (m : BufferPoolManager D) pid :
  page_table m !! pid = None ->
  (forall p1, evict (pool m) = ENone p1 ->
     fetch_page dm m pid = FErr NoFreeBuffer (mkManager (disk m) p1 (page_table m)) []) /\
  (evict (pool m) = EPanic -> fetch_page dm m pid = FPanic) /\
  (evict (pool m) = EFuel -> fetch_page dm m pid = FLoop).
Proof.
  intros Hpt. unfold fetch_page. rewrite Hpt.
  split; [intros p1 ->; reflexivity|]. split; intros ->; reflexivity.
Qed.

(** The hit path. *)
Lemma fetch_page_hit (m : BufferPoolManager D) pid b fr :
  page_table m !! pid = Some b -> buffers (pool m) !! b = Some fr ->
  fetch_page dm m pid =
    if N.leb u64_max (usage_count fr) then FPanic
    else if rc_at_max fr then FAbort
    else FOk b (mkManager (disk m)
                  (update_frame (pool m) b
                     (mkFrame (usage_count fr + 1) (buffer fr) (S (rc fr))))
                  (page_table m)) [].
Proof. intros Hpt Hfr. unfold fetch_page. rewrite Hpt, Hfr. reflexivity. Qed.

End FetchLemmas.

Lemma swept_lookup (l1 l2 : list Frame) j x :
  Forall2 swept l1 l2 -> l1 !! j = Some x ->
  exists y, l2 !! j = Some y /\ buffer y = buffer x /\ rc y = rc x.
Proof.
  intros H Hx. destruct (Forall2_lookup_l _ _ _ _ _ H Hx) as (y & Hy & Hb & Hr & _).
  eauto.
Qed.

Lemma swept_lookup_r (l1 l2 : list Frame) j y :
  Forall2 swept l1 l2 -> l2 !! j = Some y ->
  exists x, l1 !! j = Some x /\ buffer y = buffer x /\ rc y = rc x.
Proof.
  intros H Hy. destruct (Forall2_lookup_r _ _ _ _ _ H Hy) as (x & Hx & Hb & Hr & _).
  eauto.
Qed.

(* ------------------------------------------------------------------ *)
(** ** Claims on [fetch_page] *)

(** C7 (as stated, "every" hit increments usage_count by exactly 1) fails
    at the top of the [u64] range: [frame.usage_count += 1] overflows and
    the call panics. *)
Lemma C7_hit_at_u64_max_panics :
  page_table (one_frame_manager u64_max 2) !! 0 = Some 0 /\
  fetch_page ok_disk (one_frame_manager u64_max 2) 0 = FPanic.
Proof. split; vm_compute; reflexivity. Qed.

Section FetchClaims.
Context {D : Type} (dm : DiskOps D).

(** C7 (amended): on a hit whose frame has usage_count below [u64::MAX],
    [fetch_page] aborts in [Rc::clone] if the strong count of the frame's
    buffer is already [usize::MAX]; below that it returns the frame holding
    the page, with no disk I/O; that frame's usage_count goes up by exactly
    1 and its reference count by one (the new handle), its buffer (page id,
    bytes, dirty flag) is unchanged, and the disk, the page table, the
    cursor and every other frame are unchanged. *)
Theorem fetch_page_hit_bumps_usage (m : BufferPoolManager D) pid b fr :
  page_table m !! pid = Some b -> buffers (pool m) !! b = Some fr ->
  (usage_count fr < u64_max)%N ->
  (rc_at_max fr = true -> fetch_page dm m pid = FAbort) /\
  (rc_at_max fr = false ->
  exists m', fetch_page dm m pid = FOk b m' [] /\
    disk m' = disk m /\ page_table m' = page_table m /\
    next_victim_id (pool m') = next_victim_id (pool m) /\
    buffers (pool m') !! b = Some (mkFrame (usage_count fr + 1) (buffer fr) (S (rc fr))) /\
    forall j, j <> b -> buffers (pool m') !! j = buffers (pool m) !! j).
Proof.
  intros Hpt Hfr Hlt.
  rewrite (fetch_page_hit dm m pid b fr Hpt Hfr).
  destruct (N.leb_spec u64_max (usage_count fr)) as [Hle|_]; [lia|].
  split; [intros ->; reflexivity|]. intros ->.
  eexists. split; [reflexivity|]. cbn [pool disk page_table].
  assert (Hb : b < size (pool m)) by (apply lookup_lt_Some in Hfr; exact Hfr).
  split; [reflexivity|]. split; [reflexivity|]. split; [reflexivity|].
  split.
  - rewrite update_frame_lookup by exact Hb. rewrite decide_True; reflexivity.
  - intros j Hj. rewrite update_frame_lookup by exact Hb.
    rewrite decide_False by exact Hj. reflexivity.
Qed.

End FetchClaims.

Lemma fetch_page_hit_bumps_usage_witness :
  exists m', fetch_page ok_disk (one_frame_manager 3 1) 0 = FOk 0 m' [] /\
    buffers (pool m') !! 0 = Some (frame_of 4 0 false 2).
Proof.
  destruct (proj2 (fetch_page_hit_bumps_usage ok_disk (one_frame_manager 3 1) 0 0
              (frame_of 3 0 false 1) eq_refl eq_refl ltac:(vm_compute; reflexivity))
              ltac:(vm_compute; reflexivity))
    as (m' & Hf & _ & _ & _ & Hb & _).
  exists m'. split; [exact Hf|]. rewrite Hb. reflexivity.
Defined.

(** C1: the write-failure half holds (nothing is touched before the
    write), but after a failed read the page table still maps the evicted
    page [0] to frame [0], whose buffer has already been relabelled page
    [1]: a later [fetch_page 0] is a hit that hands out that buffer. *)
Theorem fetch_page_read_failure_keeps_stale_entry :
  fetch_page read_fail_disk (one_frame_manager 0 1) 1 =
    FErr (Io 5) (mkManager tt (mkBufferPool [mkFrame 0 (mkBuffer 1 test_page false) 1] 0)
                           {[0 := 0]}) [IoRead 1] /\
  fetch_page ok_disk
    (mkManager tt (mkBufferPool [mkFrame 0 (mkBuffer 1 test_page false) 1] 0) {[0 := 0]}) 0 =
    FOk 0 (mkManager tt (mkBufferPool [mkFrame 1 (mkBuffer 1 test_page false) 2] 0)
                     {[0 := 0]}) [].
Proof. split; vm_compute; reflexivity. Qed.

Lemma table_inv_same_buffers {D} (m m' : BufferPoolManager D) :
  page_table m' = page_table m ->
  (forall j x, buffers (pool m) !! j = Some x ->
     exists y, buffers (pool m') !! j = Some y /\ buffer y = buffer x) ->
  table_inv m -> table_inv m'.
Proof.
  intros Ht Hb [Hmap Hinj]. unfold table_inv in *; rewrite Ht. split; [|exact Hinj].
  intros p b Hp. destruct (Hmap p b Hp) as (x & Hx & Hpx).
  destruct (Hb b x Hx) as (y & Hy & Hxy). exists y. rewrite Hxy. auto.
Qed.

(** On a successful miss that repurposes frame [b], which held page
    [page_id (buffer fr)], for page [pid]. *)
Lemma table_inv_miss {D} (m : BufferPoolManager D) pid b p1 fr F (d2 : D) :
  table_inv m -> page_table m !! pid = None ->
  Forall2 swept (buffers (pool m)) (buffers p1) ->
  buffers p1 !! b = Some fr -> page_id (buffer F) = pid ->
  table_inv (mkManager d2 (update_frame p1 b F)
                       (<[pid := b]> (delete (page_id (buffer fr)) (page_table m)))).
Proof.
  intros [Hmap Hinj] Hpt Hsw Hfr HF.
  assert (Hb : b < size p1) by (apply lookup_lt_Some in Hfr; exact Hfr).
  assert (Hold : forall q, page_table m !! q = Some b -> q = page_id (buffer fr)).
  { intros q Hq. destruct (Hmap q b Hq) as (x & Hx & Hpx).
    destruct (swept_lookup _ _ _ _ Hsw Hx) as (y & Hy & Hyx & _).
    rewrite Hfr in Hy. injection Hy as <-. rewrite Hyx. auto. }
  unfold table_inv; cbn [pool page_table]. split.
  - intros q c Hq. rewrite lookup_insert in Hq.
    destruct (decide (pid = q)) as [<-|Hne].
    + injection Hq as <-. exists F.
      rewrite update_frame_lookup by exact Hb. rewrite decide_True; auto.
    + rewrite lookup_delete in Hq.
      destruct (decide (page_id (buffer fr) = q)) as [_|Hno]; [discriminate|].
      destruct (decide (c = b)) as [->|Hcb].
      * exfalso. apply Hno. symmetry. apply Hold. exact Hq.
      * destruct (Hmap q c Hq) as (x & Hx & Hpx).
        destruct (swept_lookup _ _ _ _ Hsw Hx) as (y & Hy & Hyx & _).
        exists y. rewrite update_frame_lookup by exact Hb.
        rewrite decide_False by exact Hcb. rewrite Hyx. auto.
  - intros q1 q2 c Hq1 Hq2. rewrite lookup_insert in Hq1, Hq2.
    rewrite lookup_delete in Hq1, Hq2.
    destruct (decide (pid = q1)) as [<-|Hn1], (decide (pid = q2)) as [<-|Hn2];
      try reflexivity.
    + injection Hq1 as <-.
      destruct (decide (page_id (buffer fr) = q2)) as [_|Hno]; [discriminate|].
      exfalso. apply Hno. symmetry. apply Hold. exact Hq2.
    + injection Hq2 as <-.
      destruct (decide (page_id (buffer fr) = q1)) as [_|Hno]; [discriminate|].
      exfalso. apply Hno. symmetry. apply Hold. exact Hq1.
    + destruct (decide (page_id (buffer fr) = q1)); [discriminate|].
      destruct (decide (page_id (buffer fr) = q2)); [discriminate|].
      eapply Hinj; eauto.
Qed.

Section FetchClaims2.
Context {D : Type} (dm : DiskOps D).

(** C6: on a miss whose victim frame (in a pool where pinned frames have a
    positive usage_count, as in every reachable state) is dirty, the first
    I/O is one write of the evicted page's identifier with its bytes, then
    the read of the requested page (unless the write failed, which ends the
    call); when the victim is clean the only I/O is the read. *)
Theorem fetch_page_flushes_dirty_victim (m : BufferPoolManager D) pid b p1 fr :
  page_table m !! pid = None -> pin_inv (pool m) ->
  evict (pool m) = EVictim b p1 -> buffers (pool m) !! b = Some fr ->
  (is_dirty (buffer fr) = true ->
     fetch_ios (fetch_page dm m pid) =
       [IoWrite (page_id (buffer fr)) (page (buffer fr)); IoRead pid] \/
     (exists d1 e,
        write_page_data dm (disk m) (page_id (buffer fr)) (page (buffer fr)) = (d1, IoErr e) /\
        fetch_page dm m pid =
          FErr (Io e) (mkManager d1 p1 (page_table m))
               [IoWrite (page_id (buffer fr)) (page (buffer fr))])) /\
  (is_dirty (buffer fr) = false -> fetch_ios (fetch_page dm m pid) = [IoRead pid]).
Proof.
  intros Hpt Hinv Hev Hfr0.
  destruct (evict_victim_spec _ _ _ Hev) as [_ Hun].
  destruct (Hun Hinv) as (fr1 & Hfr1 & Hrc).
  pose proof Hev as Hev'. unfold evict in Hev'.
  destruct (proj1 (evict_loop_result _ _ _) b p1 Hev') as (Hsw & _).
  destruct (swept_lookup _ _ _ _ Hsw Hfr0) as (y & Hy & Hyb & _).
  rewrite Hfr1 in Hy. injection Hy as <-. rewrite <- Hyb.
  destruct (fetch_page_miss_cases dm m pid b p1 fr1 Hpt Hev Hfr1 Hrc) as
    [(Hd & d1 & e & Hw & Hf) |
     (d1 & ios1 & Hwr & d2 & pg & r & _ & [(e & _ & Hf) | (_ & Hf)])];
    rewrite Hf; simpl.
  - split; [intros _; right; eauto|]. rewrite Hd. discriminate.
  - destruct Hwr as [(Hd & _ & ->) | (Hd & _ & ->)]; rewrite Hd; split;
      try discriminate; auto.
  - destruct Hwr as [(Hd & _ & ->) | (Hd & _ & ->)]; rewrite Hd; split;
      try discriminate; auto.
Qed.

(** C4: from a manager satisfying the page-table invariant, a successful
    [fetch_page pid] keeps the invariant, maps [pid] to the returned frame,
    which now holds page [pid], and leaves no entry for the page the frame
    held before the call when that page was a different one. *)
Theorem fetch_page_preserves_table_inv (m : BufferPoolManager D) pid h m' ios :
  table_inv m -> fetch_page dm m pid = FOk h m' ios ->
  table_inv m' /\ page_table m' !! pid = Some h /\
  (exists fr, buffers (pool m') !! h = Some fr /\ page_id (buffer fr) = pid) /\
  (forall fr0, buffers (pool m) !! h = Some fr0 -> page_id (buffer fr0) <> pid ->
     page_table m' !! page_id (buffer fr0) = None).
Proof.
  intros Hinv Hf.
  destruct (page_table m !! pid) as [b|] eqn:Hpt.
  - destruct (buffers (pool m) !! b) as [fr|] eqn:Hfr;
      [|unfold fetch_page in Hf; rewrite Hpt, Hfr in Hf; discriminate].
    rewrite (fetch_page_hit dm m pid b fr Hpt Hfr) in Hf.
    destruct (N.leb _ _); [discriminate|]. destruct (rc_at_max fr); [discriminate|]. injection Hf as <- <- <-.
    assert (Hb : b < size (pool m)) by (apply lookup_lt_Some in Hfr; exact Hfr).
    pose proof Hinv as [Hmap Hinj].
    destruct (Hmap pid b Hpt) as (x & Hx & Hpx). rewrite Hfr in Hx. injection Hx as <-.
    split; [|split; [|split]].
    + apply (table_inv_same_buffers m); [reflexivity| |exact Hinv].
      intros j x Hx. cbn [pool]. rewrite update_frame_lookup by exact Hb.
      destruct (decide (j = b)) as [->|_]; [|eauto].
      rewrite Hfr in Hx. injection Hx as <-. eexists; split; [reflexivity|]. reflexivity.
    + exact Hpt.
    + cbn [pool]. rewrite update_frame_lookup by exact Hb. rewrite decide_True by reflexivity.
      eexists; split; [reflexivity|]. exact Hpx.
    + intros fr0 Hfr0 Hne. rewrite Hfr in Hfr0. injection Hfr0 as <-. contradiction.
  - destruct (evict (pool m)) as [b p1|p1| |] eqn:Hev.
    + destruct (buffers p1 !! b) as [fr|] eqn:Hfr;
        [|unfold fetch_page in Hf; rewrite Hpt, Hev, Hfr in Hf; discriminate].
      destruct (get_mut_is_some fr) eqn:Hg;
        [|unfold fetch_page in Hf; rewrite Hpt, Hev, Hfr, Hg in Hf; discriminate].
      assert (Hrc : rc fr = 1) by (apply Nat.eqb_eq; exact Hg).
      destruct (fetch_page_miss_cases dm m pid b p1 fr Hpt Hev Hfr Hrc) as
        [(_ & d1 & e & _ & Hf2) |
         (d1 & ios1 & _ & d2 & pg & r & _ & [(e & _ & Hf2) | (_ & Hf2)])];
        rewrite Hf2 in Hf; try discriminate.
      injection Hf as <- <- <-.
      pose proof Hev as Hev'. unfold evict in Hev'.
      destruct (proj1 (evict_loop_result _ _ _) b p1 Hev') as (Hsw & _).
      assert (Hb : b < size p1) by (apply lookup_lt_Some in Hfr; exact Hfr).
      split; [|split; [|split]].
      * eapply table_inv_miss; eauto.
      * cbn [page_table]. apply lookup_insert_eq.
      * cbn [pool]. rewrite update_frame_lookup by exact Hb.
        rewrite decide_True by reflexivity. eexists; split; [reflexivity|]. reflexivity.
      * intros fr0 Hfr0 Hne. cbn [page_table].
        destruct (swept_lookup _ _ _ _ Hsw Hfr0) as (y & Hy & Hyb & _).
        rewrite Hfr in Hy. injection Hy as <-. rewrite <- Hyb in *.
        rewrite lookup_insert_ne by congruence. apply lookup_delete_eq.
    + rewrite (proj1 (fetch_page_miss_other dm m pid Hpt) p1 Hev) in Hf. discriminate.
    + rewrite (proj1 (proj2 (fetch_page_miss_other dm m pid Hpt)) Hev) in Hf. discriminate.
    + rewrite (proj2 (proj2 (fetch_page_miss_other dm m pid Hpt)) Hev) in Hf. discriminate.
Qed.

End FetchClaims2.

Lemma fetch_page_flushes_dirty_victim_witness :
  fetch_ios (fetch_page ok_disk (mkManager tt (mkBufferPool [frame_of 0 7 true 1] 0) empty) 3)
    = [IoWrite 7 test_page; IoRead 3] \/
  (exists d1 e,
     write_page_data ok_disk tt 7 test_page = (d1, IoErr e) /\
     fetch_page ok_disk (mkManager tt (mkBufferPool [frame_of 0 7 true 1] 0) empty) 3 =
       FErr (Io e) (mkManager d1 (mkBufferPool [frame_of 0 7 true 1] 0) empty)
            [IoWrite 7 test_page]).
Proof.
  refine (proj1 (fetch_page_flushes_dirty_victim ok_disk
            (mkManager tt (mkBufferPool [frame_of 0 7 true 1] 0) empty) 3 0
            (mkBufferPool [frame_of 0 7 true 1] 0) (frame_of 0 7 true 1)
            eq_refl _ ltac:(vm_compute; reflexivity) eq_refl) eq_refl).
  intros [|i] fr Hfr; simpl in Hfr; try discriminate.
  injection Hfr as <-. cbv. discriminate.
Defined.

Lemma fetch_page_preserves_table_inv_witness :
  exists m' ios,
    fetch_page ok_disk
      (mkManager tt (mkBufferPool [frame_of 0 0 false 1; frame_of 2 1 false 2] 0)
                 (<[0 := 0]> (<[1 := 1]> empty))) 5 = FOk 0 m' ios /\
    table_inv m' /\ page_table m' !! 5 = Some 0 /\ page_table m' !! 0 = None.
Proof.
  assert (Hinv : table_inv
      (mkManager tt (mkBufferPool [frame_of 0 0 false 1; frame_of 2 1 false 2] 0)
                 (<[0 := 0]> (<[1 := 1]> empty)))).
  { split; cbn [page_table pool buffers].
    - intros p b Hp. rewrite !lookup_insert in Hp.
      destruct (decide (0 = p)) as [<-|]; [injection Hp as <-; eexists; split; reflexivity|].
      destruct (decide (1 = p)) as [<-|]; [injection Hp as <-; eexists; split; reflexivity|].
      discriminate.
    - intros p q b Hp Hq. rewrite !lookup_insert in Hp, Hq.
      destruct (decide (0 = p)), (decide (1 = p)), (decide (0 = q)), (decide (1 = q));
        subst; try congruence; discriminate. }
  assert (Hf : exists m' ios,
    fetch_page ok_disk
      (mkManager tt (mkBufferPool [frame_of 0 0 false 1; frame_of 2 1 false 2] 0)
                 (<[0 := 0]> (<[1 := 1]> empty))) 5 = FOk 0 m' ios)
    by (eexists; eexists; vm_compute; reflexivity).
  destruct Hf as (m' & ios & Hf). exists m', ios. split; [exact Hf|].
  destruct (fetch_page_preserves_table_inv ok_disk _ 5 0 m' ios Hinv Hf)
    as (Hinv' & H5 & _ & Hold).
  split; [exact Hinv'|]. split; [exact H5|].
  apply (Hold (frame_of 0 0 false 1) eq_refl). discriminate.
Defined.

(** C10 (as stated: on a miss every frame other than the victim is left
    entirely unchanged) fails: the clock sweep that finds the victim lowers
    the usage_count of the unpinned frames it passes. *)
Lemma C10_sweep_changes_other_frame :
  fetch_page ok_disk (mkManager tt (mkBufferPool [frame_of 1 0 false 1; frame_of 0 1 false 1] 0)
                                empty) 5 =
    FOk 1 (mkManager tt (mkBufferPool [frame_of 0 0 false 1;
                                       mkFrame 1 (mkBuffer 5 test_page false) 2] 1)
                     (<[5 := 1]> empty)) [IoRead 5] /\
  frame_of 0 0 false 1 <> frame_of 1 0 false 1.
Proof. split; [vm_compute; reflexivity|]. discriminate. Qed.

(* ------------------------------------------------------------------ *)
(** ** Reachable managers *)

Lemma pool_good_swept (p p' : BufferPool) :
  pool_good p -> Forall2 swept (buffers p) (buffers p') ->
  next_victim_id p' < size p' -> pool_good p'.
Proof.
  intros (Hn & _ & Hpin & Hfr) Hsw Hcur.
  assert (Hlen : size p' = size p) by (symmetry; apply (Forall2_length _ _ _ Hsw)).
  split; [lia|]. split; [exact Hcur|]. split.
  - intros i y Hy Hg.
    destruct (Forall2_lookup_r _ _ _ _ _ Hsw Hy) as (x & Hx & (_ & Hrc & _ & Hp)).
    assert (Hgx : get_mut_is_some x = false) by (unfold get_mut_is_some in *; congruence).
    rewrite (Hp Hgx). exact (Hpin i x Hx Hgx).
  - intros i y Hy.
    destruct (Forall2_lookup_r _ _ _ _ _ Hsw Hy) as (x & Hx & (_ & Hrc & Hu & _)).
    destruct (Hfr i x Hx). split; lia.
Qed.

Lemma pool_good_update (p : BufferPool) b x :
  pool_good p -> b < size p -> 1 <= rc x -> (usage_count x <= u64_max)%N ->
  (get_mut_is_some x = false -> usage_count x <> 0%N) ->
  pool_good (update_frame p b x).
Proof.
  intros (Hn & Hcur & Hpin & Hfr) Hb Hrc Hu Hpx.
  unfold pool_good. rewrite size_update_frame, cursor_update_frame.
  split; [lia|]. split; [exact Hcur|]. split.
  - intros i y. rewrite update_frame_lookup by exact Hb.
    destruct (decide (i = b)) as [_|_]; [intros Hy; injection Hy as <-; exact Hpx|].
    apply Hpin.
  - intros i y. rewrite update_frame_lookup by exact Hb.
    destruct (decide (i = b)) as [_|_]; [intros Hy; injection Hy as <-; auto|].
    apply Hfr.
Qed.

Lemma evict_pool_good (p p' : BufferPool) :
  pool_good p -> (exists b, evict p = EVictim b p') \/ evict p = ENone p' ->
  pool_good p' /\ size p' = size p.
Proof.
  intros Hg Hev. unfold evict in Hev.
  destruct (evict_loop_result (evict_fuel p) 0 p) as [Hv Hn].
  destruct Hev as [(b & Hev) | Hev].
  - destruct (Hv b p' Hev) as (Hsw & -> & fr & Hfr & _).
    split; [apply (pool_good_swept p); auto; apply lookup_lt_Some in Hfr; exact Hfr|].
    symmetry. apply (Forall2_length _ _ _ Hsw).
  - destruct (Hn p' Hev) as (Hsw & Hcur).
    split; [apply (pool_good_swept p); auto|].
    symmetry. apply (Forall2_length _ _ _ Hsw).
Qed.

Section ReachableLemmas.
Context {D : Type} (dm : DiskOps D).

Lemma fetch_page_good (m : BufferPoolManager D) pid :
  good_state m ->
  match fetch_page dm m pid with
  | FOk _ m' _ | FErr _ m' _ => good_state m'
  | _ => True
  end.
Proof.
  intros [Hp Ht].
  destruct (page_table m !! pid) as [b|] eqn:Hpt.
  - destruct (buffers (pool m) !! b) as [fr|] eqn:Hfr;
      [|unfold fetch_page; rewrite Hpt, Hfr; exact I].
    rewrite (fetch_page_hit dm m pid b fr Hpt Hfr).
    destruct (N.leb_spec u64_max (usage_count fr)) as [_|Hlt]; [exact I|].
    destruct (rc_at_max fr); [exact I|].
    split; cbn [pool page_table].
    + apply pool_good_update.
      * exact Hp.
      * exact (Ht pid b Hpt).
      * simpl. lia.
      * simpl. lia.
      * simpl. intros _. lia.
    + intros q c Hq. rewrite size_update_frame. eauto.
  - destruct (evict (pool m)) as [b p1|p1| |] eqn:Hev.
    + destruct (buffers p1 !! b) as [fr|] eqn:Hfr;
        [|unfold fetch_page; rewrite Hpt, Hev, Hfr; exact I].
      destruct (get_mut_is_some fr) eqn:Hg;
        [|unfold fetch_page; rewrite Hpt, Hev, Hfr, Hg; exact I].
      assert (Hrc : rc fr = 1) by (apply Nat.eqb_eq; exact Hg).
      destruct (evict_pool_good (pool m) p1 Hp (or_introl (ex_intro _ b Hev)))
        as (Hp1 & Hsz).
      assert (Hb : b < size p1) by (apply lookup_lt_Some in Hfr; exact Hfr).
      pose proof Hp1 as (_ & _ & _ & Hfr1).
      destruct (Hfr1 b fr Hfr) as [_ Hufr].
      destruct (fetch_page_miss_cases dm m pid b p1 fr Hpt Hev Hfr Hrc) as
        [(_ & d1 & e & _ & Hf) |
         (d1 & ios1 & _ & d2 & pg & r & _ & [(e & _ & Hf) | (_ & Hf)])];
        rewrite Hf; split; cbn [pool page_table].
      * exact Hp1.
      * rewrite Hsz. exact Ht.
      * apply pool_good_update; auto; unfold set_buffer; simpl; try lia.
        unfold get_mut_is_some; simpl. rewrite Hrc. discriminate.
      * rewrite size_update_frame, Hsz. exact Ht.
      * apply pool_good_update; auto; simpl; try lia.
        unfold u64_max; lia.
      * intros q c Hq. rewrite size_update_frame.
        rewrite lookup_insert in Hq. destruct (decide (pid = q)).
        -- injection Hq as <-. exact Hb.
        -- rewrite lookup_delete in Hq. destruct (decide _); [discriminate|].
           rewrite Hsz. eauto.
    + rewrite (proj1 (fetch_page_miss_other dm m pid Hpt) p1 Hev).
      destruct (evict_pool_good (pool m) p1 Hp (or_intror Hev)) as (Hp1 & Hsz).
      split; cbn [pool page_table]; [exact Hp1|]. rewrite Hsz. exact Ht.
    + rewrite (proj1 (proj2 (fetch_page_miss_other dm m pid Hpt)) Hev). exact I.
    + rewrite (proj2 (proj2 (fetch_page_miss_other dm m pid Hpt)) Hev). exact I.
Qed.

Lemma map_frame_good (m : BufferPoolManager D) b fr f :
  good_state m -> buffers (pool m) !! b = Some fr -> 1 < rc fr ->
  usage_count (f fr) = usage_count fr -> 1 <= rc (f fr) ->
  good_state (map_frame m b f).
Proof.
  intros [Hp Ht] Hfr Hrc Hu Hrc'.
  unfold map_frame. rewrite Hfr.
  assert (Hb : b < size (pool m)) by (apply lookup_lt_Some in Hfr; exact Hfr).
  pose proof Hp as (_ & _ & Hpin & Hbd).
  split; cbn [pool page_table].
  - apply pool_good_update; auto.
    + rewrite Hu. apply (Hbd b fr Hfr).
    + intros _. rewrite Hu. apply (Hpin b fr Hfr).
      unfold get_mut_is_some. apply Nat.eqb_neq. lia.
  - intros q c Hq. rewrite size_update_frame. eauto.
Qed.

Lemma reachable_good (m : BufferPoolManager D) : reachable dm m -> good_state m.
Proof.
  induction 1 as [m Hi|m pid h m' ios _ IH Hf|m pid e m' ios _ IH Hf
                  |m b fr _ IH Hfr Hrc|m b fr _ IH Hfr Hrc|m b fr _ IH Hfr Hrc].
  - destruct Hi as (Hn & Hc & Ht & Hfr). split.
    + split; [exact Hn|]. split; [lia|]. split.
      * intros i fr Hx Hg. destruct (Hfr i fr Hx) as [Hr _].
        unfold get_mut_is_some in Hg. rewrite Hr in Hg. discriminate.
      * intros i fr Hx. destruct (Hfr i fr Hx). split; [lia|assumption].
    + intros q c Hq. rewrite Ht in Hq. discriminate.
  - pose proof (fetch_page_good m pid IH) as H. rewrite Hf in H. exact H.
  - pose proof (fetch_page_good m pid IH) as H. rewrite Hf in H. exact H.
  - apply (map_frame_good m b fr); auto. simpl. lia.
  - apply (map_frame_good m b fr); auto. simpl. lia.
  - apply (map_frame_good m b fr); auto. simpl.
    destruct IH as [(_ & _ & _ & Hbd) _]. apply (Hbd b fr Hfr).
Qed.

End ReachableLemmas.

Lemma evict_total (p : BufferPool) :
  pool_good p -> evict p <> EFuel /\ evict p <> EPanic.
Proof.
  intros (Hn & Hcur & _). apply evict_loop_terminates; try assumption.
  unfold evict_fuel. lia.
Qed.

(** From a fresh one-frame manager, loading page [0] and then [n] hits,
    each followed by dropping the handle it returned, reach usage_count
    [n + 1]. *)
Lemma reachable_after_hits (n : N) :
  (n < u64_max)%N -> reachable ok_disk (one_frame_manager (n + 1) 2).
Proof.
  induction n as [|n IH] using N.peano_ind; intros Hn.
  - apply (reach_fetch_ok ok_disk
             (mkManager tt (mkBufferPool [frame_of 0 0 false 1] 0) empty) 0 0
             (one_frame_manager 1 2) [IoRead 0]).
    + apply reach_init. split; [unfold size; simpl; lia|]. split; [reflexivity|].
      split; [reflexivity|].
      intros [|i] fr Hfr; simpl in Hfr; [|discriminate].
      injection Hfr as <-. split; [reflexivity|]. simpl. unfold u64_max. lia.
    + vm_compute. reflexivity.
  - assert (Hn' : (n < u64_max)%N) by lia.
    specialize (IH Hn').
    assert (Hf : fetch_page ok_disk (one_frame_manager (n + 1) 2) 0 =
      FOk 0 (mkManager tt (update_frame (mkBufferPool [frame_of (n + 1) 0 false 2] 0) 0
                              (mkFrame (n + 1 + 1) (mkBuffer 0 test_page false) 3))
                       {[0 := 0]}) []).
    { rewrite (fetch_page_hit ok_disk (one_frame_manager (n + 1) 2) 0 0 (frame_of (n + 1) 0 false 2) eq_refl eq_refl).
      change (usage_count (frame_of (n + 1) 0 false 2)) with (n + 1)%N.
      destruct (N.leb_spec u64_max (n + 1)) as [Hle|_]; [lia|]. reflexivity. }
    pose proof (reach_fetch_ok ok_disk _ 0 0 _ [] IH Hf) as H1.
    pose proof (reach_drop ok_disk _ 0 (mkFrame (n + 1 + 1) (mkBuffer 0 test_page false) 3)
                  H1 eq_refl ltac:(simpl; lia)) as H2.
    replace (N.succ n + 1)%N with (n + 1 + 1)%N by lia.
    exact H2.
Qed.

(** From the one-frame manager of [reachable_after_hits 0], a caller that
    clones its handle [k] times (keeping the clones) reaches [k + 2]
    references. *)
Lemma reachable_after_clones (k : N) :
  (k + 2 <= usize_max)%N -> reachable ok_disk (one_frame_manager 1 (N.to_nat k + 2)).
Proof.
  induction k as [|k IH] using N.peano_ind; intros Hk.
  - apply (reachable_after_hits 0). vm_compute. reflexivity.
  - assert (Hk' : (k + 2 <= usize_max)%N) by lia.
    specialize (IH Hk').
    assert (Hmax : rc_at_max (frame_of 1 0 false (N.to_nat k + 2)) = false).
    { unfold rc_at_max, frame_of. cbn [rc]. apply N.eqb_neq.
      rewrite Nat2N.inj_add, N2Nat.id. change (N.of_nat 2) with 2%N. lia. }
    pose proof (reach_clone ok_disk _ 0 (frame_of 1 0 false (N.to_nat k + 2)) IH eq_refl
                  ltac:(cbn [rc frame_of]; lia) Hmax) as H.
    rewrite N2Nat.inj_succ. exact H.
Qed.

(** C3 (as stated, "fetch_page is total on every reachable manager state")
    fails: the hit path's [usage_count += 1] overflows [u64] on a reachable
    manager, and the call panics; and once a caller has cloned its handle
    up to a strong count of [usize::MAX], a hit aborts in [Rc::clone]. *)
Lemma C3_reachable_overflow_panics :
  reachable ok_disk (one_frame_manager u64_max 2) /\
  fetch_page ok_disk (one_frame_manager u64_max 2) 0 = FPanic /\
  reachable ok_disk (one_frame_manager 1 (N.to_nat usize_max)) /\
  fetch_page ok_disk (one_frame_manager 1 (N.to_nat usize_max)) 0 = FAbort.
Proof.
  assert (Hr : N.to_nat (usize_max - 2) + 2 = N.to_nat usize_max).
  { change (N.to_nat (usize_max - 2) + 2) with (N.to_nat (usize_max - 2) + N.to_nat 2).
    rewrite <- N2Nat.inj_add. f_equal.
    }
  split; [|split; [vm_compute; reflexivity|split]].
  - pose proof (reachable_after_hits (u64_max - 1) ltac:(vm_compute; reflexivity)) as H.
    replace (u64_max - 1 + 1)%N with u64_max in H by (vm_compute; reflexivity).
    exact H.
  - rewrite <- Hr. apply reachable_after_clones. vm_compute. discriminate.
  - rewrite (fetch_page_hit ok_disk (one_frame_manager 1 (N.to_nat usize_max)) 0 0
               (frame_of 1 0 false (N.to_nat usize_max)) eq_refl eq_refl).
    assert (Hmax : rc_at_max (frame_of 1 0 false (N.to_nat usize_max)) = true).
    { unfold rc_at_max, frame_of. cbn [rc]. apply N.eqb_eq. apply N2Nat.id. }
    rewrite Hmax. reflexivity.
Qed.

Section ReachableClaims.
Context {D : Type} (dm : DiskOps D).

(** C3 (amended): on every manager reachable from a fresh pool of at least
    one frame, the victim [evict] returns on a miss has a single reference,
    so [Rc::get_mut(..).unwrap()] succeeds; [fetch_page] always terminates
    (the sweep ends), and it fails to return [Ok] or [Err] only on a hit:
    it panics in [usage_count += 1] when the count is already [u64::MAX],
    and it aborts in [Rc::clone] when the count is below that but the
    buffer's strong count is already [usize::MAX]. *)
Theorem fetch_page_panics_only_on_overflow (m : BufferPoolManager D) pid :
  reachable dm m ->
  (page_table m !! pid = None -> forall b p1, evict (pool m) = EVictim b p1 ->
     exists fr, buffers p1 !! b = Some fr /\ get_mut_is_some fr = true) /\
  fetch_page dm m pid <> FLoop /\
  (fetch_page dm m pid = FPanic ->
     exists b fr, page_table m !! pid = Some b /\ buffers (pool m) !! b = Some fr /\
       usage_count fr = u64_max) /\
  (fetch_page dm m pid = FAbort ->
     exists b fr, page_table m !! pid = Some b /\ buffers (pool m) !! b = Some fr /\
       (usage_count fr < u64_max)%N /\ N.of_nat (rc fr) = usize_max).
Proof.
  intros Hr. destruct (reachable_good dm m Hr) as [Hp Ht].
  pose proof Hp as (_ & _ & Hpin & Hbd).
  assert (Hvic : page_table m !! pid = None -> forall b p1, evict (pool m) = EVictim b p1 ->
     exists fr, buffers p1 !! b = Some fr /\ get_mut_is_some fr = true).
  { intros _ b p1 Hev. destruct (proj2 (evict_victim_spec _ _ _ Hev) Hpin) as (fr & Hfr & Hrc).
    exists fr. split; [exact Hfr|]. unfold get_mut_is_some. rewrite Hrc. reflexivity. }
  split; [exact Hvic|].
  destruct (page_table m !! pid) as [b|] eqn:Hpt.
  - destruct (lookup_lt_is_Some_2 (buffers (pool m)) b (Ht pid b Hpt)) as [fr Hfr].
    rewrite (fetch_page_hit dm m pid b fr Hpt Hfr).
    destruct (N.leb_spec u64_max (usage_count fr)) as [Hle|Hlt].
    + split; [discriminate|]. split; [|discriminate].
      intros _. exists b, fr. split; [reflexivity|]. split; [exact Hfr|].
      destruct (Hbd b fr Hfr). lia.
    + destruct (rc_at_max fr) eqn:Hmax.
      * split; [discriminate|]. split; [discriminate|].
        intros _. exists b, fr. split; [reflexivity|]. split; [exact Hfr|].
        split; [exact Hlt|]. apply N.eqb_eq. exact Hmax.
      * split; [discriminate|]. split; discriminate.
  - destruct (evict_total (pool m) Hp) as [Hnf Hnp].
    destruct (evict (pool m)) as [b p1|p1| |] eqn:Hev; try congruence.
    + destruct (Hvic eq_refl b p1 eq_refl) as (fr & Hfr & Hg).
      assert (Hrc : rc fr = 1) by (apply Nat.eqb_eq; exact Hg).
      destruct (fetch_page_miss_cases dm m pid b p1 fr Hpt Hev Hfr Hrc) as
        [(_ & d1 & e & _ & Hf) |
         (d1 & ios1 & _ & d2 & pg & r & _ & [(e & _ & Hf) | (_ & Hf)])];
        rewrite Hf; (split; [discriminate|split; discriminate]).
    + rewrite (proj1 (fetch_page_miss_other dm m pid Hpt) p1 Hev).
      split; [discriminate|split; discriminate].
Qed.

End ReachableClaims.

Lemma fetch_page_panics_only_on_overflow_witness :
  reachable ok_disk (one_frame_manager 1 2) /\
  fetch_page ok_disk (one_frame_manager 1 2) 3 <> FLoop.
Proof.
  assert (Hr : reachable ok_disk (one_frame_manager 1 2)).
  { apply (reachable_after_hits 0). vm_compute. reflexivity. }
  split; [exact Hr|].
  exact (proj1 (proj2 (fetch_page_panics_only_on_overflow ok_disk _ 3 Hr))).
Defined.

(* ------------------------------------------------------------------ *)
(** ** Further properties of [evict] *)

Lemma mod_rotate_back (start i n : nat) :
  start < n -> i < n -> (start + (i + n - start) mod n) mod n = i.
Proof.
  intros Hs Hi.
  rewrite Nat.Div0.add_mod_idemp_r.
  replace (start + (i + n - start)) with (i + 1 * n) by lia.
  rewrite Nat.Div0.mod_add. apply Nat.mod_small. exact Hi.
Qed.

(** A run of [c] pinned observations since position [start] has seen the
    [c] slots [start], [start + 1], ... (circularly); when the run reaches
    the pool size, every slot has been seen pinned. *)
Lemma evict_loop_none_all_pinned f c p start p' :
  0 < size p -> start < size p -> c < size p ->
  next_victim_id p = (start + c) mod size p ->
  (forall k, k < c -> exists fr, buffers p !! ((start + k) mod size p) = Some fr /\
     get_mut_is_some fr = false /\ usage_count fr <> 0%N) ->
  evict_loop f c p = ENone p' ->
  forall i, i < size p' -> exists fr, buffers p' !! i = Some fr /\
    get_mut_is_some fr = false /\ usage_count fr <> 0%N.
Proof.
  revert c p start. induction f as [|f IH]; intros c p start Hn Hs Hc Hcur Hseen Hev;
    [discriminate|].
  simpl in Hev.
  assert (Hlt : next_victim_id p < size p) by (rewrite Hcur; apply Nat.mod_upper_bound; lia).
  destruct (lookup_lt_is_Some_2 (buffers p) (next_victim_id p) Hlt) as [fr Hfr].
  rewrite (evict_step_spec c p fr Hfr) in Hev.
  destruct (N.eqb_spec (usage_count fr) 0) as [_|Hu]; [discriminate|].
  destruct (get_mut_is_some fr) eqn:Hg.
  - refine (IH 0 _ ((next_victim_id p + 1) mod size p) _ _ _ _ _ Hev);
      unfold size in *; simpl; rewrite ?length_insert; try lia.
    + apply Nat.mod_upper_bound. lia.
    + rewrite Nat.add_0_r, Nat.Div0.mod_mod. reflexivity.
  - destruct (Nat.leb_spec (size p) (c + 1)) as [Hle|Hgt].
    + injection Hev as <-. intros i Hi.
      set (k := (i + size p - start) mod size p).
      assert (Hk : k < size p) by (apply Nat.mod_upper_bound; lia).
      assert (Hki : (start + k) mod size p = i) by (apply mod_rotate_back; lia).
      destruct (Nat.lt_ge_cases k c) as [Hkc|Hkc].
      * destruct (Hseen k Hkc) as (y & Hy & Hyg & Hyu). rewrite Hki in Hy. eauto.
      * assert (k = c) as -> by lia. rewrite Hki in Hcur. rewrite Hcur in Hfr. eauto.
    + refine (IH (c + 1) _ start _ _ _ _ _ Hev); unfold size in *; simpl; try lia.
      * rewrite Hcur, Nat.Div0.add_mod_idemp_l. f_equal. lia.
      * intros k Hk. destruct (Nat.lt_ge_cases k c) as [Hkc|Hkc]; [exact (Hseen k Hkc)|].
        assert (k = c) as -> by lia. rewrite <- Hcur. eauto.
Qed.

(** On a saturated pool the sweep only moves the cursor: the frames come
    back unchanged. *)
Lemma evict_loop_saturated_frames f c p p' :
  (forall i fr, buffers p !! i = Some fr ->
     get_mut_is_some fr = false /\ usage_count fr <> 0%N) ->
  evict_loop f c p = ENone p' -> buffers p' = buffers p.
Proof.
  revert c p. induction f as [|f IH]; intros c p Hall Hev; [discriminate|].
  simpl in Hev. unfold evict_step in Hev.
  destruct (buffers p !! next_victim_id p) as [fr|] eqn:Hfr; [|discriminate].
  destruct (Hall _ _ Hfr) as [Hg Hu]. apply N.eqb_neq in Hu. rewrite Hu, Hg in Hev.
  destruct (Nat.leb _ _); [injection Hev as <-; reflexivity|].
  exact (IH (c + 1) (set_next_victim_id p (increment_id p (next_victim_id p))) Hall Hev).
Qed.

(** X1: [evict] never changes a frame's buffer or reference count and never
    raises a usage_count; it lowers only the counts of frames with a single
    reference, and keeps the number of frames. *)
Theorem evict_only_lowers_counts (p p' : BufferPool) :
  (exists b, evict p = EVictim b p') \/ evict p = ENone p' ->
  size p' = size p /\
  forall i fr, buffers p !! i = Some fr ->
    exists fr', buffers p' !! i = Some fr' /\ buffer fr' = buffer fr /\
      rc fr' = rc fr /\ (usage_count fr' <= usage_count fr)%N /\
      (rc fr <> 1 -> usage_count fr' = usage_count fr).
Proof.
  intros Hev. unfold evict in Hev.
  destruct (evict_loop_result (evict_fuel p) 0 p) as [Hv Hn].
  assert (Hsw : Forall2 swept (buffers p) (buffers p')).
  { destruct Hev as [(b & Hev) | Hev]; [apply (Hv b p' Hev)|apply (Hn p' Hev)]. }
  split; [symmetry; apply (Forall2_length _ _ _ Hsw)|].
  intros i fr Hfr.
  destruct (Forall2_lookup_l _ _ _ _ _ Hsw Hfr) as (y & Hy & Hb & Hr & Hu & Hp).
  exists y. repeat split; auto.
  intros Hrc. apply Hp. unfold get_mut_is_some. apply Nat.eqb_neq. exact Hrc.
Qed.

Lemma evict_only_lowers_counts_witness :
  size (mkBufferPool [frame_of 1 0 false 2; frame_of 0 1 false 1] 1) =
    size (mkBufferPool [frame_of 1 0 false 2; frame_of 0 1 false 1] 0).
Proof.
  assert (Hev : evict (mkBufferPool [frame_of 1 0 false 2; frame_of 0 1 false 1] 0) =
    EVictim 1 (mkBufferPool [frame_of 1 0 false 2; frame_of 0 1 false 1] 1))
    by (vm_compute; reflexivity).
  exact (proj1 (evict_only_lowers_counts
    (mkBufferPool [frame_of 1 0 false 2; frame_of 0 1 false 1] 0)
    (mkBufferPool [frame_of 1 0 false 2; frame_of 0 1 false 1] 1)
    (or_introl (ex_intro _ 1 Hev)))).
Defined.

(** X2: on a pool of at least one frame with the cursor in range, [evict]
    returns None exactly when every frame is pinned (its [Rc::get_mut]
    fails) and has a positive usage_count. *)
Theorem evict_none_iff_all_pinned (p : BufferPool) :
  0 < size p -> next_victim_id p < size p ->
  (exists p', evict p = ENone p') <->
  (forall i fr, buffers p !! i = Some fr ->
     get_mut_is_some fr = false /\ usage_count fr <> 0%N).
Proof.
  intros Hn Hcur. split.
  - intros (p' & Hev) i fr Hfr.
    pose proof Hev as Hev'. unfold evict in Hev'.
    destruct (proj2 (evict_loop_result _ _ _) p' Hev') as [Hsw _].
    destruct (Forall2_lookup_l _ _ _ _ _ Hsw Hfr) as (y & Hy & (_ & Hr & _ & Hp)).
    assert (Hi : i < size p') by (apply lookup_lt_Some in Hy; exact Hy).
    destruct (evict_loop_none_all_pinned _ 0 p (next_victim_id p) p' Hn Hcur Hn
                ltac:(rewrite Nat.add_0_r, Nat.mod_small by exact Hcur; reflexivity)
                ltac:(intros; lia) Hev' i Hi) as (y' & Hy' & Hg & Hu).
    rewrite Hy in Hy'. injection Hy' as <-.
    assert (Hgx : get_mut_is_some fr = false) by (unfold get_mut_is_some in *; congruence).
    split; [exact Hgx|]. rewrite <- (Hp Hgx). exact Hu.
  - intros Hall. apply evict_loop_saturated; try assumption. unfold evict_fuel. lia.
Qed.

Lemma evict_none_iff_all_pinned_witness :
  exists p', evict (mkBufferPool [frame_of 1 0 false 2; frame_of 3 1 true 2] 1) = ENone p'.
Proof.
  apply (proj2 (evict_none_iff_all_pinned
                  (mkBufferPool [frame_of 1 0 false 2; frame_of 3 1 true 2] 1)
                  ltac:(unfold size; simpl; lia) ltac:(unfold size; simpl; lia))).
  intros [|[|i]] fr Hfr; simpl in Hfr; try discriminate; injection Hfr as <-;
    split; cbv; congruence.
Defined.

(** X3: the cursor is left on the victim, so calling [evict] again with
    nothing changed in between returns the same frame and changes nothing. *)
Theorem evict_victim_stable (p p' : BufferPool) b :
  evict p = EVictim b p' -> next_victim_id p' = b /\ evict p' = EVictim b p'.
Proof.
  intros Hev. unfold evict in Hev.
  destruct (proj1 (evict_loop_result _ _ _) b p' Hev) as (_ & -> & fr & Hfr & Hu).
  split; [reflexivity|].
  unfold evict. destruct (evict_fuel_S p') as [f ->]. simpl.
  rewrite (evict_step_spec 0 p' fr Hfr), Hu. reflexivity.
Qed.

Lemma evict_victim_stable_witness :
  evict (mkBufferPool [frame_of 1 0 false 1; frame_of 0 1 false 1] 1) =
    EVictim 1 (mkBufferPool [frame_of 1 0 false 1; frame_of 0 1 false 1] 1).
Proof.
  apply (proj2 (evict_victim_stable
    (mkBufferPool [frame_of 2 0 false 1; frame_of 0 1 false 1] 0)
    (mkBufferPool [frame_of 1 0 false 1; frame_of 0 1 false 1] 1) 1
    ltac:(vm_compute; reflexivity))).
Defined.

(* ------------------------------------------------------------------ *)
(** ** Further properties of [fetch_page] *)

Section FetchOutcomes.
Context {D : Type} (dm : DiskOps D).

(** How a call can end in [Ok]. *)
Lemma fetch_page_ok_cases (m : BufferPoolManager D) pid h m' ios :
  fetch_page dm m pid = FOk h m' ios ->
  (page_table m !! pid = Some h /\ ios = [] /\ exists fr,
     buffers (pool m) !! h = Some fr /\ (usage_count fr < u64_max)%N /\
     rc_at_max fr = false /\
     m' = mkManager (disk m)
            (update_frame (pool m) h (mkFrame (usage_count fr + 1) (buffer fr) (S (rc fr))))
            (page_table m)) \/
  (page_table m !! pid = None /\ exists p1 fr d1 d2 pg ios1,
     evict (pool m) = EVictim h p1 /\ buffers p1 !! h = Some fr /\ rc fr = 1 /\
     ((is_dirty (buffer fr) = true /\
       write_page_data dm (disk m) (page_id (buffer fr)) (page (buffer fr)) = (d1, IoOk) /\
       ios1 = [IoWrite (page_id (buffer fr)) (page (buffer fr))]) \/
      (is_dirty (buffer fr) = false /\ d1 = disk m /\ ios1 = [])) /\
     read_page_data dm d1 pid (page (buffer fr)) = (d2, pg, IoOk) /\
     ios = ios1 ++ [IoRead pid] /\
     m' = mkManager d2 (update_frame p1 h (mkFrame 1 (mkBuffer pid pg false) 2))
                    (<[pid := h]> (delete (page_id (buffer fr)) (page_table m)))).
Proof.
  intros Hf.
  destruct (page_table m !! pid) as [b|] eqn:Hpt.
  - left. destruct (buffers (pool m) !! b) as [fr|] eqn:Hfr;
      [|unfold fetch_page in Hf; rewrite Hpt, Hfr in Hf; discriminate].
    rewrite (fetch_page_hit dm m pid b fr Hpt Hfr) in Hf.
    destruct (N.leb_spec u64_max (usage_count fr)) as [_|Hlt]; [discriminate|].
    destruct (rc_at_max fr) eqn:Hmax; [discriminate|].
    injection Hf as <- <- <-. split; [reflexivity|]. split; [reflexivity|].
    exists fr. auto.
  - right. split; [reflexivity|].
    destruct (evict (pool m)) as [b p1|p1| |] eqn:Hev.
    + destruct (buffers p1 !! b) as [fr|] eqn:Hfr;
        [|unfold fetch_page in Hf; rewrite Hpt, Hev, Hfr in Hf; discriminate].
      destruct (get_mut_is_some fr) eqn:Hg;
        [|unfold fetch_page in Hf; rewrite Hpt, Hev, Hfr, Hg in Hf; discriminate].
      assert (Hrc : rc fr = 1) by (apply Nat.eqb_eq; exact Hg).
      destruct (fetch_page_miss_cases dm m pid b p1 fr Hpt Hev Hfr Hrc) as
        [(_ & d1 & e & _ & Hf2) |
         (d1 & ios1 & Hwr & d2 & pg & r & Hr & [(e & _ & Hf2) | (-> & Hf2)])];
        rewrite Hf2 in Hf; try discriminate.
      injection Hf as <- <- <-.
      exists p1, fr, d1, d2, pg, ios1. auto 10.
    + rewrite (proj1 (fetch_page_miss_other dm m pid Hpt) p1 Hev) in Hf. discriminate.
    + rewrite (proj1 (proj2 (fetch_page_miss_other dm m pid Hpt)) Hev) in Hf. discriminate.
    + rewrite (proj2 (proj2 (fetch_page_miss_other dm m pid Hpt)) Hev) in Hf. discriminate.
Qed.

(** How a call can end in [Err]: no victim, a failed write, or a failed
    read. *)
Lemma fetch_page_err_cases (m : BufferPoolManager D) pid e m' ios :
  fetch_page dm m pid = FErr e m' ios ->
  page_table m !! pid = None /\
  ((e = NoFreeBuffer /\ ios = [] /\ evict (pool m) = ENone (pool m') /\
    disk m' = disk m /\ page_table m' = page_table m) \/
   (exists b fr ie, evict (pool m) = EVictim b (pool m') /\ buffers (pool m') !! b = Some fr /\
      rc fr = 1 /\ is_dirty (buffer fr) = true /\ e = Io ie /\
      write_page_data dm (disk m) (page_id (buffer fr)) (page (buffer fr)) = (disk m', IoErr ie) /\
      ios = [IoWrite (page_id (buffer fr)) (page (buffer fr))] /\
      page_table m' = page_table m) \/
   (exists b p1 fr d1 pg ie ios1, evict (pool m) = EVictim b p1 /\ buffers p1 !! b = Some fr /\
      rc fr = 1 /\ e = Io ie /\
      ((is_dirty (buffer fr) = true /\
        write_page_data dm (disk m) (page_id (buffer fr)) (page (buffer fr)) = (d1, IoOk) /\
        ios1 = [IoWrite (page_id (buffer fr)) (page (buffer fr))]) \/
       (is_dirty (buffer fr) = false /\ d1 = disk m /\ ios1 = [])) /\
      read_page_data dm d1 pid (page (buffer fr)) = (disk m', pg, IoErr ie) /\
      ios = ios1 ++ [IoRead pid] /\
      pool m' = update_frame p1 b (set_buffer fr (mkBuffer pid pg false)) /\
      page_table m' = page_table m)).
Proof.
  intros Hf.
  destruct (page_table m !! pid) as [b|] eqn:Hpt.
  - exfalso. destruct (buffers (pool m) !! b) as [fr|] eqn:Hfr;
      [|unfold fetch_page in Hf; rewrite Hpt, Hfr in Hf; discriminate].
    rewrite (fetch_page_hit dm m pid b fr Hpt Hfr) in Hf.
    destruct (N.leb _ _); [discriminate|]. destruct (rc_at_max fr); discriminate.
  - split; [reflexivity|].
    destruct (evict (pool m)) as [b p1|p1| |] eqn:Hev.
    + destruct (buffers p1 !! b) as [fr|] eqn:Hfr;
        [|unfold fetch_page in Hf; rewrite Hpt, Hev, Hfr in Hf; discriminate].
      destruct (get_mut_is_some fr) eqn:Hg;
        [|unfold fetch_page in Hf; rewrite Hpt, Hev, Hfr, Hg in Hf; discriminate].
      assert (Hrc : rc fr = 1) by (apply Nat.eqb_eq; exact Hg).
      destruct (fetch_page_miss_cases dm m pid b p1 fr Hpt Hev Hfr Hrc) as
        [(Hd & d1 & ie & Hw & Hf2) |
         (d1 & ios1 & Hwr & d2 & pg & r & Hr & [(ie & -> & Hf2) | (_ & Hf2)])];
        rewrite Hf2 in Hf; try discriminate.
      * injection Hf as <- <- <-. right; left. exists b, fr, ie. cbn [pool disk page_table].
        auto 10.
      * injection Hf as <- <- <-. right; right.
        exists b, p1, fr, d1, pg, ie, ios1. cbn [pool disk page_table]. auto 10.
    + rewrite (proj1 (fetch_page_miss_other dm m pid Hpt) p1 Hev) in Hf.
      injection Hf as <- <- <-. left. cbn [pool disk page_table]. auto.
    + rewrite (proj1 (proj2 (fetch_page_miss_other dm m pid Hpt)) Hev) in Hf. discriminate.
    + rewrite (proj2 (proj2 (fetch_page_miss_other dm m pid Hpt)) Hev) in Hf. discriminate.
Qed.

End FetchOutcomes.

Section FetchClaims3.
Context {D : Type} (dm : DiskOps D).

(** C10 (amended): every call performs at most two block I/O operations:
    none on a hit or without a victim, the load alone for a clean victim,
    write then load for a dirty one, the write alone if it fails (for a
    victim held by the pool alone, as every victim is in a reachable
    state).  A failed miss leaves the page table unchanged.  A successful
    miss changes the page table only by dropping the victim's old page and
    adding the requested one, and rewrites the victim frame; every other
    frame keeps its buffer and reference count, and its usage_count can
    only be lowered by the sweep (never for a pinned frame). *)
Theorem fetch_page_frame_effects (m : BufferPoolManager D) pid :
  length (fetch_ios (fetch_page dm m pid)) <= 2 /\
  (forall b, page_table m !! pid = Some b -> fetch_ios (fetch_page dm m pid) = []) /\
  (page_table m !! pid = None -> forall p1, evict (pool m) = ENone p1 ->
     fetch_ios (fetch_page dm m pid) = []) /\
  (page_table m !! pid = None -> forall b p1 fr, evict (pool m) = EVictim b p1 ->
     buffers p1 !! b = Some fr -> rc fr = 1 ->
     (is_dirty (buffer fr) = false -> fetch_ios (fetch_page dm m pid) = [IoRead pid]) /\
     (is_dirty (buffer fr) = true ->
        (exists d1, write_page_data dm (disk m) (page_id (buffer fr)) (page (buffer fr)) = (d1, IoOk) /\
           fetch_ios (fetch_page dm m pid) =
             [IoWrite (page_id (buffer fr)) (page (buffer fr)); IoRead pid]) \/
        (exists d1 e, write_page_data dm (disk m) (page_id (buffer fr)) (page (buffer fr)) = (d1, IoErr e) /\
           fetch_page dm m pid =
             FErr (Io e) (mkManager d1 p1 (page_table m))
                  [IoWrite (page_id (buffer fr)) (page (buffer fr))]))) /\
  (forall e m' ios, fetch_page dm m pid = FErr e m' ios -> page_table m' = page_table m) /\
  (page_table m !! pid = None -> forall h m' ios, fetch_page dm m pid = FOk h m' ios ->
     (exists fr, buffers (pool m) !! h = Some fr /\
        page_table m' = <[pid := h]> (delete (page_id (buffer fr)) (page_table m))) /\
     forall j x, j <> h -> buffers (pool m) !! j = Some x ->
       exists y, buffers (pool m') !! j = Some y /\ swept x y).
Proof.
  split; [|split; [|split; [|split; [|split]]]].
  - destruct (fetch_page dm m pid) as [h m' ios|e m' ios| | |] eqn:Hf; simpl; try lia.
    + destruct (fetch_page_ok_cases dm m pid h m' ios Hf) as
        [(_ & -> & _) | (_ & p1 & fr & d1 & d2 & pg & ios1 & _ & _ & _ & Hw & _ & -> & _)];
        [simpl; lia|].
      destruct Hw as [(_ & _ & ->) | (_ & _ & ->)]; simpl; lia.
    + destruct (fetch_page_err_cases dm m pid e m' ios Hf) as
        [_ [(_ & -> & _) |
            [(b & fr & ie & _ & _ & _ & _ & _ & _ & -> & _) |
             (b & p1 & fr & d1 & pg & ie & ios1 & _ & _ & _ & _ & Hw & _ & -> & _)]]];
        simpl; try lia.
      destruct Hw as [(_ & _ & ->) | (_ & _ & ->)]; simpl; lia.
  - intros b Hpt.
    destruct (buffers (pool m) !! b) as [fr|] eqn:Hfr;
      [|unfold fetch_page; rewrite Hpt, Hfr; reflexivity].
    rewrite (fetch_page_hit dm m pid b fr Hpt Hfr).
    destruct (N.leb _ _); [reflexivity|]. destruct (rc_at_max fr); reflexivity.
  - intros Hpt p1 Hev. rewrite (proj1 (fetch_page_miss_other dm m pid Hpt) p1 Hev).
    reflexivity.
  - intros Hpt b p1 fr Hev Hfr Hrc.
    destruct (fetch_page_miss_cases dm m pid b p1 fr Hpt Hev Hfr Hrc) as
      [(Hd & d1 & e & Hw & Hf) |
       (d1 & ios1 & Hwr & d2 & pg & r & _ & [(e & _ & Hf) | (_ & Hf)])];
      rewrite Hf.
    + split; [rewrite Hd; discriminate|]. intros _. right. eauto.
    + destruct Hwr as [(Hd & Hw & ->) | (Hd & _ & ->)]; rewrite Hd.
      * split; [discriminate|]. intros _. left. eauto.
      * split; [reflexivity|discriminate].
    + destruct Hwr as [(Hd & Hw & ->) | (Hd & _ & ->)]; rewrite Hd.
      * split; [discriminate|]. intros _. left. eauto.
      * split; [reflexivity|discriminate].
  - intros e m' ios Hf.
    destruct (fetch_page_err_cases dm m pid e m' ios Hf) as
      [_ [(_ & _ & _ & _ & Ht) |
          [(b & fr & ie & _ & _ & _ & _ & _ & _ & _ & Ht) |
           (b & p1 & fr & d1 & pg & ie & ios1 & _ & _ & _ & _ & _ & _ & _ & _ & Ht)]]];
      exact Ht.
  - intros Hpt h m' ios Hf.
    destruct (fetch_page_ok_cases dm m pid h m' ios Hf) as
      [(Hpt' & _) | (_ & p1 & fr & d1 & d2 & pg & ios1 & Hev & Hfr & _ & _ & _ & _ & ->)];
      [congruence|].
    unfold evict in Hev.
    destruct (proj1 (evict_loop_result _ _ _) h p1 Hev) as (Hsw & _).
    assert (Hb : h < size p1) by (apply lookup_lt_Some in Hfr; exact Hfr).
    split.
    + destruct (swept_lookup_r _ _ _ _ Hsw Hfr) as (x & Hx & Hxb & _).
      exists x. split; [exact Hx|]. cbn [page_table]. rewrite Hxb. reflexivity.
    + intros j x Hj Hx. cbn [pool].
      destruct (Forall2_lookup_l _ _ _ _ _ Hsw Hx) as (y & Hy & Hxy).
      exists y. rewrite update_frame_lookup by exact Hb.
      rewrite decide_False by exact Hj. auto.
Qed.

End FetchClaims3.

Lemma fetch_page_frame_effects_witness :
  fetch_ios (fetch_page ok_disk (one_frame_manager 0 1) 3) = [IoRead 3] /\
  exists fr, buffers (pool single_frame_fresh) !! 0 = Some fr /\
    page_table single_frame_loaded =
      <[7 := 0]> (delete (page_id (buffer fr)) (page_table single_frame_fresh)).
Proof.
  split.
  - apply (proj1 (proj1 (proj2 (proj2 (proj2 (fetch_page_frame_effects ok_disk
             (one_frame_manager 0 1) 3)))) ltac:(vm_compute; reflexivity)
             0 (mkBufferPool [frame_of 0 0 false 1] 0) (frame_of 0 0 false 1)
             ltac:(vm_compute; reflexivity) ltac:(vm_compute; reflexivity) eq_refl)).
    reflexivity.
  - exact (proj1 (proj2 (proj2 (proj2 (proj2 (proj2 (fetch_page_frame_effects ok_disk
             single_frame_fresh 7))))) ltac:(vm_compute; reflexivity)
             0 single_frame_loaded [IoRead 7] ltac:(vm_compute; reflexivity))).
Defined.


Section FetchExtras.
Context {D : Type} (dm : DiskOps D).

(** X4: after a successful [fetch_page(pid)] the page table maps [pid] to
    the returned frame; fetching [pid] again right away, with the frame's
    usage_count below the [u64] maximum, is a hit on the same frame with no
    disk I/O that leaves the disk and the page table as they are, unless
    the buffer's strong count is already [usize::MAX], where the hit aborts
    in [Rc::clone]. *)
Theorem fetch_page_ok_then_hit (m : BufferPoolManager D) pid h m' ios :
  fetch_page dm m pid = FOk h m' ios ->
  page_table m' !! pid = Some h /\
  exists fr, buffers (pool m') !! h = Some fr /\
    ((usage_count fr < u64_max)%N ->
     (rc_at_max fr = true -> fetch_page dm m' pid = FAbort) /\
     (rc_at_max fr = false ->
      exists m'', fetch_page dm m' pid = FOk h m'' [] /\
        disk m'' = disk m' /\ page_table m'' = page_table m')).
Proof.
  intros Hf.
  assert (Hlook : page_table m' !! pid = Some h /\
                  exists fr, buffers (pool m') !! h = Some fr).
  { destruct (fetch_page_ok_cases dm m pid h m' ios Hf) as
      [(Hpt & _ & fr & Hfr & _ & _ & ->) |
       (_ & p1 & fr & d1 & d2 & pg & ios1 & _ & Hfr & _ & _ & _ & _ & ->)];
      cbn [pool page_table].
    - split; [exact Hpt|]. eexists.
      rewrite update_frame_lookup by (apply lookup_lt_Some in Hfr; exact Hfr).
      rewrite decide_True by reflexivity. reflexivity.
    - split; [apply lookup_insert_eq|]. eexists.
      rewrite update_frame_lookup by (apply lookup_lt_Some in Hfr; exact Hfr).
      rewrite decide_True by reflexivity. reflexivity. }
  destruct Hlook as [Hpt (fr & Hfr)]. split; [exact Hpt|].
  exists fr. split; [exact Hfr|]. intros Hlt.
  rewrite (fetch_page_hit dm m' pid h fr Hpt Hfr).
  destruct (N.leb_spec u64_max (usage_count fr)) as [Hle|_]; [lia|].
  split; [intros ->; reflexivity|]. intros ->.
  eexists. split; [reflexivity|]. split; reflexivity.
Qed.

(** X5: a successful miss takes a frame that only the pool referenced, asks
    the disk to read [pid] into its old bytes, and leaves in that frame a
    clean buffer labelled [pid] holding the bytes read, with usage_count 1
    and two references (the pool's and the returned one); the page table
    loses the entry of the page that frame held and gains [pid]; the read
    is the last I/O, after at most the write-back of the old page. *)
Theorem fetch_page_miss_loads_page (m : BufferPoolManager D) pid h m' ios :
  page_table m !! pid = None ->
  fetch_page dm m pid = FOk h m' ios ->
  exists fr0 d1 pg ios1,
    buffers (pool m) !! h = Some fr0 /\ rc fr0 = 1 /\
    read_page_data dm d1 pid (page (buffer fr0)) = (disk m', pg, IoOk) /\
    buffers (pool m') !! h = Some (mkFrame 1 (mkBuffer pid pg false) 2) /\
    page_table m' = <[pid := h]> (delete (page_id (buffer fr0)) (page_table m)) /\
    ios = ios1 ++ [IoRead pid] /\
    (ios1 = [] \/ ios1 = [IoWrite (page_id (buffer fr0)) (page (buffer fr0))]).
Proof.
  intros Hnone Hf.
  destruct (fetch_page_ok_cases dm m pid h m' ios Hf) as
    [(Hpt & _) | (_ & p1 & fr & d1 & d2 & pg & ios1 & Hev & Hfr & Hrc & Hw & Hr & Hios & ->)];
    [congruence|].
  unfold evict in Hev.
  destruct (proj1 (evict_loop_result _ _ _) h p1 Hev) as (Hsw & _).
  destruct (swept_lookup_r _ _ h fr Hsw Hfr) as (fr0 & Hfr0 & Hb & Hrc0).
  exists fr0, d1, pg, ios1. cbn [pool page_table disk].
  rewrite <- Hb. repeat split; try assumption; try congruence.
  - rewrite update_frame_lookup by (apply lookup_lt_Some in Hfr; exact Hfr).
    rewrite decide_True by reflexivity. reflexivity.
  - destruct Hw as [(_ & _ & ->) | (_ & _ & ->)]; auto.
Qed.

(** X6: when [pid] is not resident and every frame is pinned with a
    positive usage_count, [fetch_page] fails with [NoFreeBuffer] without
    any disk I/O, leaving the disk, the page table and every frame as they
    were (only the victim cursor may move). *)
Theorem fetch_page_all_pinned_no_free_buffer (m : BufferPoolManager D) pid :
  page_table m !! pid = None ->
  0 < size (pool m) -> next_victim_id (pool m) < size (pool m) ->
  (forall i fr, buffers (pool m) !! i = Some fr ->
     get_mut_is_some fr = false /\ usage_count fr <> 0%N) ->
  exists p', fetch_page dm m pid = FErr NoFreeBuffer (mkManager (disk m) p' (page_table m)) [] /\
    buffers p' = buffers (pool m).
Proof.
  intros Hpt Hn Hcur Hall.
  destruct (evict_loop_saturated (evict_fuel (pool m)) 0 (pool m) Hcur Hn
              ltac:(unfold evict_fuel; lia) Hall) as [p' Hev].
  exists p'. split.
  - apply (proj1 (fetch_page_miss_other dm m pid Hpt)). exact Hev.
  - exact (evict_loop_saturated_frames _ _ _ _ Hall Hev).
Qed.

(** X7: a call that fails before reading from the disk (no victim, or the
    write-back of the dirty victim failed) performs at most one I/O, leaves
    the page table unchanged, keeps every frame's buffer and reference
    count, and so keeps the page-table invariant. *)
Theorem fetch_page_error_before_read (m : BufferPoolManager D) pid e m' ios :
  fetch_page dm m pid = FErr e m' ios -> ~ In (IoRead pid) ios ->
  page_table m' = page_table m /\ length ios <= 1 /\
  (forall i fr, buffers (pool m) !! i = Some fr ->
     exists fr', buffers (pool m') !! i = Some fr' /\
       buffer fr' = buffer fr /\ rc fr' = rc fr) /\
  (table_inv m -> table_inv m').
Proof.
  intros Hf Hnr.
  assert (H : page_table m' = page_table m /\ length ios <= 1 /\
              Forall2 swept (buffers (pool m)) (buffers (pool m'))).
  { destruct (fetch_page_err_cases dm m pid e m' ios Hf) as
      [_ [(_ & -> & Hev & _ & Ht) |
          [(b & fr & ie & Hev & _ & _ & _ & _ & _ & -> & Ht) |
           (b & p1 & fr & d1 & pg & ie & ios1 & _ & _ & _ & _ & _ & _ & -> & _ & _)]]].
    - unfold evict in Hev. split; [exact Ht|]. split; [simpl; lia|].
      exact (proj1 (proj2 (evict_loop_result _ _ _) _ Hev)).
    - unfold evict in Hev. split; [exact Ht|]. split; [simpl; lia|].
      exact (proj1 (proj1 (evict_loop_result _ _ _) _ _ Hev)).
    - exfalso. apply Hnr. apply in_or_app. right. left. reflexivity. }
  destruct H as (Ht & Hlen & Hsw).
  assert (Hb : forall i fr, buffers (pool m) !! i = Some fr ->
     exists fr', buffers (pool m') !! i = Some fr' /\
       buffer fr' = buffer fr /\ rc fr' = rc fr)
    by (intros i fr Hfr; exact (swept_lookup _ _ i fr Hsw Hfr)).
  split; [exact Ht|]. split; [exact Hlen|]. split; [exact Hb|].
  apply table_inv_same_buffers; [exact Ht|].
  intros j x Hx. destruct (Hb j x Hx) as (y & Hy & Hyx & _). eauto.
Qed.

(** X8: when the read fails, the page table is left unchanged (so [pid] is
    still absent), yet the victim frame, which only the pool referenced,
    now holds a clean buffer labelled [pid] with usage_count 0 and a single
    reference; every other frame keeps its buffer and reference count. *)
Theorem fetch_page_read_failure_relabels_victim (m : BufferPoolManager D) pid e m' ios :
  fetch_page dm m pid = FErr e m' ios -> In (IoRead pid) ios ->
  page_table m' = page_table m /\ page_table m !! pid = None /\
  (exists ie, e = Io ie) /\
  exists b fr0 fr, buffers (pool m) !! b = Some fr0 /\ rc fr0 = 1 /\
    buffers (pool m') !! b = Some fr /\
    page_id (buffer fr) = pid /\ is_dirty (buffer fr) = false /\
    usage_count fr = 0%N /\ rc fr = 1 /\
    (forall j x, j <> b -> buffers (pool m) !! j = Some x ->
       exists y, buffers (pool m') !! j = Some y /\ buffer y = buffer x /\ rc y = rc x).
Proof.
  intros Hf Hin.
  destruct (fetch_page_err_cases dm m pid e m' ios Hf) as
    [Hpt [(_ & -> & _) |
          [(b & fr & ie & _ & _ & _ & _ & _ & _ & -> & _) |
           (b & p1 & fr & d1 & pg & ie & ios1 & Hev & Hfr & Hrc & -> & _ & _ & _ & Hp & Ht)]]].
  - destruct Hin.
  - destruct Hin as [Hin|[]]. discriminate.
  - unfold evict in Hev.
    destruct (proj1 (evict_loop_result _ _ _) b p1 Hev) as (Hsw & _ & fr' & Hfr' & Hu).
    rewrite Hfr in Hfr'. injection Hfr' as <-.
    destruct (swept_lookup_r _ _ b fr Hsw Hfr) as (fr0 & Hfr0 & Hb & Hrc0).
    assert (Hbs : b < size p1) by (apply lookup_lt_Some in Hfr; exact Hfr).
    split; [exact Ht|]. split; [exact Hpt|]. split; [eauto|].
    exists b, fr0, (set_buffer fr (mkBuffer pid pg false)).
    rewrite Hp, update_frame_lookup, decide_True by (reflexivity || exact Hbs).
    split; [exact Hfr0|]. split; [congruence|]. split; [reflexivity|].
    split; [reflexivity|]. split; [reflexivity|]. split; [exact Hu|]. split; [exact Hrc|].
    intros j x Hj Hx. rewrite update_frame_lookup, decide_False by (exact Hbs || exact Hj).
    exact (swept_lookup _ _ j x Hsw Hx).
Qed.

(** X9: every manager reachable from a fresh one (through [fetch_page] and
    the clone, drop and set-dirty operations on handed-out buffers) has at
    least one frame, its victim cursor in range, every frame referenced by
    the pool with a usage_count within the [u64] range, a positive
    usage_count on every frame held outside the pool, and page-table
    entries naming frames in range. *)
Theorem reachable_manager_well_formed (m : BufferPoolManager D) :
  reachable dm m ->
  0 < size (pool m) /\ next_victim_id (pool m) < size (pool m) /\
  (forall i fr, buffers (pool m) !! i = Some fr ->
     1 <= rc fr /\ (usage_count fr <= u64_max)%N /\
     (1 < rc fr -> usage_count fr <> 0%N)) /\
  (forall p b, page_table m !! p = Some b -> b < size (pool m)).
Proof.
  intros Hr. destruct (reachable_good dm m Hr) as ((Hn & Hc & Hpin & Hfr) & Ht).
  split; [exact Hn|]. split; [exact Hc|]. split; [|exact Ht].
  intros i fr Hx. destruct (Hfr i fr Hx) as [H1 H2].
  split; [exact H1|]. split; [exact H2|].
  intros Hgt. apply (Hpin i fr Hx). unfold get_mut_is_some. apply Nat.eqb_neq. lia.
Qed.

End FetchExtras.

Lemma fetch_page_ok_then_hit_witness :
  exists m'', fetch_page ok_disk single_frame_loaded 7 = FOk 0 m'' [].
Proof.
  destruct (fetch_page_ok_then_hit ok_disk single_frame_fresh 7 0 single_frame_loaded [IoRead 7]
              ltac:(vm_compute; reflexivity)) as [_ (fr & Hfr & Hhit)].
  vm_compute in Hfr. injection Hfr as <-.
  destruct (proj2 (Hhit ltac:(vm_compute; reflexivity)) ltac:(vm_compute; reflexivity))
    as (m'' & Hf & _).
  exists m''. exact Hf.
Defined.

Lemma fetch_page_miss_loads_page_witness :
  exists fr0 d1 pg,
    buffers (pool single_frame_fresh) !! 0 = Some fr0 /\ rc fr0 = 1 /\
    read_page_data ok_disk d1 7 (page (buffer fr0)) = (tt, pg, IoOk) /\
    buffers (pool single_frame_loaded) !! 0 = Some (mkFrame 1 (mkBuffer 7 pg false) 2).
Proof.
  destruct (fetch_page_miss_loads_page ok_disk single_frame_fresh 7 0 single_frame_loaded
              [IoRead 7] ltac:(vm_compute; reflexivity) ltac:(vm_compute; reflexivity))
    as (fr0 & d1 & pg & ios1 & H0 & Hrc & Hr & H1 & _).
  exists fr0, d1, pg. auto.
Defined.

Lemma fetch_page_all_pinned_no_free_buffer_witness :
  exists p',
    fetch_page ok_disk pinned_pair_manager 5 =
      FErr NoFreeBuffer (mkManager tt p' (page_table pinned_pair_manager)) [] /\
    buffers p' = buffers (pool pinned_pair_manager).
Proof.
  apply (fetch_page_all_pinned_no_free_buffer ok_disk pinned_pair_manager 5
           ltac:(vm_compute; reflexivity) ltac:(unfold size; simpl; lia)
           ltac:(unfold size; simpl; lia)).
  intros [|[|i]] fr Hfr; simpl in Hfr; try discriminate; injection Hfr as <-;
    split; cbv; congruence.
Defined.

Lemma fetch_page_error_before_read_witness :
  exists fr', buffers (pool dirty_single_manager) !! 0 = Some fr' /\
    buffer fr' = buffer (frame_of 0 0 true 1) /\ rc fr' = 1.
Proof.
  destruct (fetch_page_error_before_read write_fail_disk
    dirty_single_manager 3 (Io 7) dirty_single_manager
    [IoWrite 0 test_page]
    ltac:(vm_compute; reflexivity)
    ltac:(simpl; intros [H|[]]; discriminate)) as (_ & _ & Hb & _).
  exact (Hb 0 (frame_of 0 0 true 1) eq_refl).
Defined.

Lemma fetch_page_read_failure_relabels_victim_witness :
  exists ie, Io 5 = Io ie.
Proof.
  exact (proj1 (proj2 (proj2 (fetch_page_read_failure_relabels_victim read_fail_disk
    (one_frame_manager 0 1) 7 (Io 5)
    (mkManager tt (mkBufferPool [mkFrame 0 (mkBuffer 7 test_page false) 1] 0)
               (page_table (one_frame_manager 0 1)))
    [IoRead 7]
    ltac:(vm_compute; reflexivity)
    ltac:(left; reflexivity))))).
Defined.

Lemma reachable_manager_well_formed_witness :
  0 < size (pool single_frame_loaded) /\
  next_victim_id (pool single_frame_loaded) < size (pool single_frame_loaded).
Proof.
  assert (Hr : reachable ok_disk single_frame_loaded).
  { apply (reach_fetch_ok ok_disk single_frame_fresh 7 0 single_frame_loaded [IoRead 7]).
    - apply reach_init. split; [unfold size; simpl; lia|]. split; [reflexivity|].
      split; [reflexivity|].
      intros [|i] fr Hx; simpl in Hx; [|discriminate]. injection Hx as <-.
      split; [reflexivity|apply N.le_0_l].
    - vm_compute. reflexivity. }
  destruct (reachable_manager_well_formed ok_disk single_frame_loaded Hr) as (H0 & H1 & _).
  split; assumption.
Defined.

(** X10: the unit test [test_evict] fails at its third assertion, for every
    [PAGE_SIZE]: each [let _ = Rc::clone(..)] drops the clone at once, so
    no frame is pinned, and the third [evict] sweeps frame 1's count back
    to 0 and returns frame 0 instead of [None]. *)
Theorem test_evict_third_assertion_fails (page_size : nat) :
  test_evict_run page_size = [Some (Some 0); Some (Some 1); Some (Some 0); Some (Some 0)] /\
  test_evict_run page_size <> test_evict_expected.
Proof.
  assert (H : test_evict_run page_size =
              [Some (Some 0); Some (Some 1); Some (Some 0); Some (Some 0)])
    by (vm_compute; reflexivity).
  split; [exact H|]. rewrite H. unfold test_evict_expected. discriminate.
Qed.

(* ------------------------------------------------------------------ *)
(** ** More on [evict] *)

Lemma same_shape_size (p q : BufferPool) : same_shape p q -> size p = size q.
Proof.
  intros [Hm _]. unfold size.
  rewrite <- (length_fmap frame_shape (buffers p)), <- (length_fmap frame_shape (buffers q)).
  congruence.
Qed.

Lemma evict_step_same_shape c p q :
  same_shape p q ->
  match evict_step c p, evict_step c q with
  | Done r1, Done r2 => same_result r1 r2
  | Continue c1 p1, Continue c2 q1 => c1 = c2 /\ same_shape p1 q1
  | _, _ => False
  end.
Proof.
  intros Hs. pose proof (same_shape_size p q Hs) as Hsz. destruct Hs as [Hm Hc].
  unfold evict_step. rewrite Hc.
  pose proof (f_equal (fun l => l !! next_victim_id q) Hm) as Hl. simpl in Hl.
  rewrite !list_lookup_fmap in Hl.
  destruct (buffers p !! next_victim_id q) as [frp|] eqn:Hp,
           (buffers q !! next_victim_id q) as [frq|] eqn:Hq; simpl in Hl;
    try discriminate; [|exact I].
  injection Hl as Hu Hr.
  assert (Hg : get_mut_is_some frp = get_mut_is_some frq) by (unfold get_mut_is_some; congruence).
  rewrite Hu, Hg.
  destruct (N.eqb (usage_count frq) 0).
  - split; [reflexivity|]. split; [exact Hm|exact Hc].
  - destruct (get_mut_is_some frq).
    + split; [reflexivity|].
      assert (Hm' : frame_shape <$> <[next_victim_id q :=
                       set_usage_count frp (usage_count frq - 1)]> (buffers p) =
                    frame_shape <$> <[next_victim_id q :=
                       set_usage_count frq (usage_count frq - 1)]> (buffers q)).
      { rewrite !list_fmap_insert, Hm. unfold frame_shape, set_usage_count; simpl.
        rewrite Hr. reflexivity. }
      split; [exact Hm'|].
      unfold set_next_victim_id, increment_id, size, set_buffers; simpl.
      rewrite !length_insert. unfold size in Hsz. rewrite Hsz. reflexivity.
    + rewrite Hsz. destruct (Nat.leb (size q) (c + 1)).
      * split; [exact Hm|exact Hc].
      * split; [reflexivity|]. split; [exact Hm|].
        unfold set_next_victim_id, increment_id; simpl. rewrite Hsz. reflexivity.
Qed.

Lemma evict_loop_same_shape f c p q :
  same_shape p q -> same_result (evict_loop f c p) (evict_loop f c q).
Proof.
  revert c p q. induction f as [|f IH]; intros c p q Hs; simpl; [exact I|].
  pose proof (evict_step_same_shape c p q Hs) as Hst.
  destruct (evict_step c p) as [r1|c1 p1], (evict_step c q) as [r2|c2 q1];
    try contradiction; [exact Hst|].
  destruct Hst as [<- Hs1]. apply IH. exact Hs1.
Qed.

Lemma sum_usage_shape (l : list Frame) :
  sum_usage l = fold_right (fun s acc => N.to_nat (fst s) + acc) 0 (frame_shape <$> l).
Proof. induction l as [|fr l IH]; simpl; [reflexivity|]. rewrite IH. reflexivity. Qed.

(** X12: [evict] never looks at a buffer's page id, bytes or dirty flag:
    on two pools that agree on every frame's usage_count and reference
    count and on the cursor, it gives the same answer and leaves pools that
    again agree on these. *)
Theorem evict_ignores_buffer_contents (p q : BufferPool) :
  same_shape p q -> same_result (evict p) (evict q).
Proof.
  intros Hs. unfold evict.
  replace (evict_fuel q) with (evict_fuel p).
  - apply evict_loop_same_shape. exact Hs.
  - unfold evict_fuel. rewrite !sum_usage_shape, (same_shape_size p q Hs).
    destruct Hs as [Hm _]. rewrite Hm. reflexivity.
Qed.

Lemma evict_ignores_buffer_contents_witness :
  same_result (evict (mkBufferPool [frame_of 1 0 false 1; frame_of 2 1 true 2] 0))
              (evict (mkBufferPool [mkFrame 1 (mkBuffer 4 [] true) 1;
                                    mkFrame 2 (mkBuffer 9 test_page false) 2] 0)).
Proof. apply evict_ignores_buffer_contents. split; reflexivity. Defined.

(* ------------------------------------------------------------------ *)
(** ** The I/O of [fetch_page] *)

Section FetchIo.
Context {D : Type} (dm : DiskOps D).

(** X13: whatever the outcome, the I/O of one [fetch_page(pid)] call is
    none, a read of [pid], or the write-back of a frame that was dirty when
    the call began (its page id and bytes as they were), possibly followed
    by the read of [pid]: the only page read is [pid], at most one page is
    written, and never after the read. *)
Theorem fetch_page_io_shape (m : BufferPoolManager D) pid :
  fetch_ios (fetch_page dm m pid) = [] \/
  fetch_ios (fetch_page dm m pid) = [IoRead pid] \/
  exists b fr, buffers (pool m) !! b = Some fr /\ is_dirty (buffer fr) = true /\
    (fetch_ios (fetch_page dm m pid) = [IoWrite (page_id (buffer fr)) (page (buffer fr))] \/
     fetch_ios (fetch_page dm m pid) =
       [IoWrite (page_id (buffer fr)) (page (buffer fr)); IoRead pid]).
Proof.
  destruct (fetch_page dm m pid) as [h m' ios|e m' ios| | |] eqn:Hf; simpl; auto.
  - destruct (fetch_page_ok_cases dm m pid h m' ios Hf) as
      [(_ & -> & _) | (_ & p1 & fr & d1 & d2 & pg & ios1 & Hev & Hfr & _ & Hw & _ & -> & _)];
      [left; reflexivity|].
    unfold evict in Hev.
    destruct (proj1 (evict_loop_result _ _ _) h p1 Hev) as (Hsw & _).
    destruct (swept_lookup_r _ _ h fr Hsw Hfr) as (fr0 & Hfr0 & Hb & _).
    destruct Hw as [(Hd & _ & ->) | (_ & _ & ->)]; [|right; left; reflexivity].
    right; right. exists h, fr0. rewrite <- Hb.
    split; [exact Hfr0|]. split; [exact Hd|]. right. reflexivity.
  - destruct (fetch_page_err_cases dm m pid e m' ios Hf) as
      [_ [(_ & -> & _) |
          [(b & fr & ie & Hev & Hfr & _ & Hd & _ & _ & -> & _) |
           (b & p1 & fr & d1 & pg & ie & ios1 & Hev & Hfr & _ & _ & Hw & _ & -> & _)]]];
      [left; reflexivity| |].
    + unfold evict in Hev.
      destruct (proj1 (evict_loop_result _ _ _) b (pool m') Hev) as (Hsw & _).
      destruct (swept_lookup_r _ _ b fr Hsw Hfr) as (fr0 & Hfr0 & Hb & _).
      right; right. exists b, fr0. rewrite <- Hb.
      split; [exact Hfr0|]. split; [exact Hd|]. left. reflexivity.
    + unfold evict in Hev.
      destruct (proj1 (evict_loop_result _ _ _) b p1 Hev) as (Hsw & _).
      destruct (swept_lookup_r _ _ b fr Hsw Hfr) as (fr0 & Hfr0 & Hb & _).
      destruct Hw as [(Hd & _ & ->) | (_ & _ & ->)]; [|right; left; reflexivity].
      right; right. exists b, fr0. rewrite <- Hb.
      split; [exact Hfr0|]. split; [exact Hd|]. right. reflexivity.
Qed.

End FetchIo.

Lemma evict_none_all_pinned (p p' : BufferPool) :
  0 < size p -> next_victim_id p < size p -> evict p = ENone p' ->
  forall i fr, buffers p !! i = Some fr ->
    get_mut_is_some fr = false /\ usage_count fr <> 0%N.
Proof.
  intros Hn Hcur Hev i fr Hfr. unfold evict in Hev.
  destruct (proj2 (evict_loop_result _ _ _) p' Hev) as [Hsw _].
  destruct (Forall2_lookup_l _ _ _ _ _ Hsw Hfr) as (y & Hy & (_ & Hr & _ & Hp)).
  assert (Hi : i < size p') by (apply lookup_lt_Some in Hy; exact Hy).
  destruct (evict_loop_none_all_pinned _ 0 p (next_victim_id p) p' Hn Hcur Hn
              ltac:(rewrite Nat.add_0_r, Nat.mod_small by exact Hcur; reflexivity)
              ltac:(intros; lia) Hev i Hi) as (y' & Hy' & Hg & Hu).
  rewrite Hy in Hy'. injection Hy' as <-.
  assert (Hgx : get_mut_is_some fr = false) by (unfold get_mut_is_some in *; congruence).
  split; [exact Hgx|]. rewrite <- (Hp Hgx). exact Hu.
Qed.

Lemma map_frame_lookup {D} (m : BufferPoolManager D) b fr f j :
  buffers (pool m) !! b = Some fr ->
  buffers (pool (map_frame m b f)) !! j =
    if decide (j = b) then Some (f fr) else buffers (pool m) !! j.
Proof.
  intros Hfr. unfold map_frame. rewrite Hfr. cbn [pool].
  apply update_frame_lookup. apply lookup_lt_Some in Hfr. exact Hfr.
Qed.

(** A frame held outside the pool with a positive count is never the
    victim, and [evict] leaves it exactly as it was. *)
Lemma evict_keeps_held (p : BufferPool) h fr :
  buffers p !! h = Some fr -> 1 < rc fr -> usage_count fr <> 0%N ->
  (forall b p', evict p = EVictim b p' -> b <> h /\ buffers p' !! h = Some fr) /\
  (forall p', evict p = ENone p' -> buffers p' !! h = Some fr).
Proof.
  intros Hfr Hrc Hu.
  assert (Hg : get_mut_is_some fr = false)
    by (unfold get_mut_is_some; apply Nat.eqb_neq; lia).
  assert (Hkeep : forall p', Forall2 swept (buffers p) (buffers p') ->
                             buffers p' !! h = Some fr).
  { intros p' Hsw.
    destruct (Forall2_lookup_l _ _ _ _ _ Hsw Hfr) as (y & Hy & (Hb & Hr & _ & Hp)).
    rewrite Hy. f_equal. specialize (Hp Hg).
    destruct fr, y; cbn in *; congruence. }
  unfold evict. split.
  - intros b p' Hev.
    destruct (proj1 (evict_loop_result _ _ _) b p' Hev) as (Hsw & _ & fr' & Hfr' & Hu').
    pose proof (Hkeep p' Hsw) as Hh. split; [|exact Hh].
    intros ->. rewrite Hh in Hfr'. injection Hfr' as <-. contradiction.
  - intros p' Hev. exact (Hkeep p' (proj1 (proj2 (evict_loop_result _ _ _) p' Hev))).
Qed.

Section HeldHandle.
Context {D : Type} (dm : DiskOps D).

Lemma held_inv_fetch (h : nat) (m : BufferPoolManager D) pid :
  held_inv h m ->
  match fetch_page dm m pid with
  | FOk _ m' _ | FErr _ m' _ => held_inv h m'
  | _ => True
  end.
Proof.
  intros (fr & Hfr & Hrc & Hu).
  destruct (evict_keeps_held (pool m) h fr Hfr Hrc Hu) as [Hv Hn].
  assert (Hh : h < size (pool m)) by (apply lookup_lt_Some in Hfr; exact Hfr).
  destruct (fetch_page dm m pid) as [h' m' ios|e m' ios| | |] eqn:Hf; try exact I.
  - destruct (fetch_page_ok_cases dm m pid h' m' ios Hf) as
      [(_ & _ & fr1 & Hfr1 & _ & _ & ->) |
       (_ & p1 & fr1 & d1 & d2 & pg & ios1 & Hev & Hfr1 & _ & _ & _ & _ & ->)];
      unfold held_inv; cbn [pool].
    + assert (Hb : h' < size (pool m)) by (apply lookup_lt_Some in Hfr1; exact Hfr1).
      rewrite update_frame_lookup by exact Hb.
      destruct (decide (h = h')) as [<-|Hne].
      * rewrite Hfr in Hfr1. injection Hfr1 as <-.
        eexists. split; [reflexivity|]. simpl. split; [lia|lia].
      * exists fr. auto.
    + destruct (Hv h' p1 Hev) as [Hne Hh1].
      assert (Hb : h' < size p1) by (apply lookup_lt_Some in Hfr1; exact Hfr1).
      exists fr. rewrite update_frame_lookup by exact Hb.
      rewrite decide_False by congruence. auto.
  - destruct (fetch_page_err_cases dm m pid e m' ios Hf) as
      [_ [(_ & _ & Hev & _ & _) |
          [(b & fr1 & ie & Hev & _ & _ & _ & _ & _ & _ & _) |
           (b & p1 & fr1 & d1 & pg & ie & ios1 & Hev & Hfr1 & _ & _ & _ & _ & _ & Hp & _)]]].
    + exists fr. split; [exact (Hn (pool m') Hev)|auto].
    + exists fr. split; [exact (proj2 (Hv b (pool m') Hev))|auto].
    + destruct (Hv b p1 Hev) as [Hne Hh1].
      assert (Hb : b < size p1) by (apply lookup_lt_Some in Hfr1; exact Hfr1).
      exists fr. rewrite Hp, update_frame_lookup by exact Hb.
      rewrite decide_False by congruence. auto.
Qed.

Lemma held_inv_run (h : nat) (m m' : BufferPoolManager D) :
  held_after dm h m m' -> held_inv h m -> held_inv h m'.
Proof.
  intros Hh Hinv.
  induction Hh as [|m2 pid h' m3 ios _ IH Hf|m2 pid e m3 ios _ IH Hf
                  |m2 b fr _ IH Hfr Hrc _|m2 b fr _ IH Hfr Hrc Hkeep|m2 b fr _ IH Hfr Hrc].
  - exact Hinv.
  - pose proof (held_inv_fetch h m2 pid IH) as H. rewrite Hf in H. exact H.
  - pose proof (held_inv_fetch h m2 pid IH) as H. rewrite Hf in H. exact H.
  - destruct IH as (x & Hx & Hxr & Hxu).
    unfold held_inv. setoid_rewrite (map_frame_lookup m2 b fr _ h Hfr).
    destruct (decide (h = b)) as [->|Hne]; [|eauto].
    rewrite Hfr in Hx. injection Hx as <-. eexists. split; [reflexivity|]. simpl. lia.
  - destruct IH as (x & Hx & Hxr & Hxu).
    unfold held_inv. setoid_rewrite (map_frame_lookup m2 b fr _ h Hfr).
    destruct (decide (h = b)) as [->|Hne]; [|eauto].
    rewrite Hfr in Hx. injection Hx as <-. specialize (Hkeep eq_refl).
    eexists. split; [reflexivity|]. simpl. split; [lia|exact Hxu].
  - destruct IH as (x & Hx & Hxr & Hxu).
    unfold held_inv. setoid_rewrite (map_frame_lookup m2 b fr _ h Hfr).
    destruct (decide (h = b)) as [->|Hne]; [|eauto].
    rewrite Hfr in Hx. injection Hx as <-. eexists. split; [reflexivity|]. simpl. auto.
Qed.

(** Right after a successful call on a reachable manager, the returned
    frame is held outside the pool with a positive count. *)
Lemma held_inv_fetch_start (m : BufferPoolManager D) pid h m' ios :
  reachable dm m -> fetch_page dm m pid = FOk h m' ios -> held_inv h m'.
Proof.
  intros Hr Hf.
  destruct (reachable_good dm m Hr) as ((_ & _ & _ & Hrc) & _).
  destruct (fetch_page_ok_cases dm m pid h m' ios Hf) as
    [(_ & _ & fr & Hfr & _ & _ & ->) |
     (_ & p1 & fr & d1 & d2 & pg & ios1 & _ & Hfr & _ & _ & _ & _ & ->)];
    unfold held_inv; cbn [pool]; eexists;
    (rewrite update_frame_lookup by (apply lookup_lt_Some in Hfr; exact Hfr));
    rewrite decide_True by reflexivity; (split; [reflexivity|]); simpl.
  - destruct (Hrc h fr Hfr) as [H1 _]. split; [lia|]. lia.
  - split; [lia|]. discriminate.
Qed.

(** X11: a call never loses the data of a dirty buffer: afterwards every
    frame that was dirty at the call still holds the same buffer, or the
    disk accepted the write-back of that buffer's bytes under its page id
    during the call. *)
Theorem fetch_page_never_drops_dirty_data (m : BufferPoolManager D) pid :
  match fetch_page dm m pid with
  | FOk _ m' ios | FErr _ m' ios =>
      forall j fr, buffers (pool m) !! j = Some fr -> is_dirty (buffer fr) = true ->
        (exists fr', buffers (pool m') !! j = Some fr' /\ buffer fr' = buffer fr) \/
        ((exists d1, write_page_data dm (disk m) (page_id (buffer fr)) (page (buffer fr)) =
                       (d1, IoOk)) /\
         In (IoWrite (page_id (buffer fr)) (page (buffer fr))) ios)
  | _ => True
  end.
Proof.
  destruct (fetch_page dm m pid) as [h m' ios|e m' ios| | |] eqn:Hf; try exact I.
  - intros j fr Hfr Hd.
    destruct (fetch_page_ok_cases dm m pid h m' ios Hf) as
      [(_ & _ & fr1 & Hfr1 & _ & _ & ->) |
       (_ & p1 & fr1 & d1 & d2 & pg & ios1 & Hev & Hfr1 & _ & Hw & _ & -> & ->)];
      cbn [pool].
    + left. assert (Hb : h < size (pool m)) by (apply lookup_lt_Some in Hfr1; exact Hfr1).
      rewrite update_frame_lookup by exact Hb.
      destruct (decide (j = h)) as [->|Hne]; [|eauto].
      rewrite Hfr in Hfr1. injection Hfr1 as <-. eexists. split; reflexivity.
    + unfold evict in Hev.
      destruct (proj1 (evict_loop_result _ _ _) h p1 Hev) as (Hsw & _).
      assert (Hb : h < size p1) by (apply lookup_lt_Some in Hfr1; exact Hfr1).
      destruct (swept_lookup _ _ j fr Hsw Hfr) as (y & Hy & Hyb & _).
      destruct (decide (j = h)) as [->|Hne].
      * right. rewrite Hfr1 in Hy. injection Hy as <-. rewrite <- Hyb.
        rewrite <- Hyb in Hd.
        destruct Hw as [(_ & Hw & ->) | (Hd' & _ & _)]; [|congruence].
        split; [eauto|]. apply in_or_app. left. left. reflexivity.
      * left. exists y. rewrite update_frame_lookup, decide_False by (exact Hb || exact Hne).
        auto.
  - intros j fr Hfr Hd.
    destruct (fetch_page_err_cases dm m pid e m' ios Hf) as
      [_ [(_ & _ & Hev & _ & _) |
          [(b & fr1 & ie & Hev & _ & _ & _ & _ & _ & _ & _) |
           (b & p1 & fr1 & d1 & pg & ie & ios1 & Hev & Hfr1 & _ & _ & Hw & _ & -> & Hp & _)]]];
      unfold evict in Hev.
    + left. pose proof (proj1 (proj2 (evict_loop_result _ _ _) _ Hev)) as Hsw.
      destruct (swept_lookup _ _ j fr Hsw Hfr) as (y & Hy & Hyb & _). eauto.
    + left. destruct (proj1 (evict_loop_result _ _ _) _ _ Hev) as (Hsw & _).
      destruct (swept_lookup _ _ j fr Hsw Hfr) as (y & Hy & Hyb & _). eauto.
    + destruct (proj1 (evict_loop_result _ _ _) b p1 Hev) as (Hsw & _).
      assert (Hb : b < size p1) by (apply lookup_lt_Some in Hfr1; exact Hfr1).
      destruct (swept_lookup _ _ j fr Hsw Hfr) as (y & Hy & Hyb & _).
      rewrite Hp. destruct (decide (j = b)) as [->|Hne].
      * right. rewrite Hfr1 in Hy. injection Hy as <-. rewrite <- Hyb.
        rewrite <- Hyb in Hd.
        destruct Hw as [(_ & Hw & ->) | (Hd' & _ & _)]; [|congruence].
        split; [eauto|]. apply in_or_app. left. left. reflexivity.
      * left. exists y. rewrite update_frame_lookup, decide_False by (exact Hb || exact Hne).
        auto.
Qed.

End HeldHandle.

Section FetchThenEvict.
Context {D : Type} (dm : DiskOps D).

(** X14: in a reachable manager, the frame whose buffer [fetch_page] has
    just returned is not the victim of any later [evict] for as long as
    that handle is held, whatever other fetches, clones, drops and writes
    happen meanwhile: the frame keeps a shared [Rc] and a positive
    usage_count, which the sweep skips without lowering. *)
Theorem fetch_page_result_not_next_victim (m : BufferPoolManager D) pid h m' ios m'' :
  reachable dm m -> fetch_page dm m pid = FOk h m' ios -> held_after dm h m' m'' ->
  match evict (pool m'') with
  | EVictim b _ => b <> h
  | _ => True
  end.
Proof.
  intros Hr Hf Hh.
  assert (Hinv : held_inv h m') by exact (held_inv_fetch_start dm m pid h m' ios Hr Hf).
  destruct (held_inv_run dm h m' m'' Hh Hinv) as (fr & Hfr & Hrc & Hu).
  destruct (evict (pool m'')) as [b p3| | |] eqn:Hev; try exact I.
  exact (proj1 (proj1 (evict_keeps_held _ h fr Hfr Hrc Hu) b p3 Hev)).
Qed.

(** X15: [fetch_page] fails with [NoFreeBuffer] only when, at the call,
    every frame is pinned (held outside the pool) with a positive
    usage_count; it then performed no I/O and left the page table as it
    was. *)
Theorem fetch_page_no_free_buffer_all_pinned (m : BufferPoolManager D) pid m' ios :
  0 < size (pool m) -> next_victim_id (pool m) < size (pool m) ->
  fetch_page dm m pid = FErr NoFreeBuffer m' ios ->
  ios = [] /\ page_table m' = page_table m /\ page_table m !! pid = None /\
  forall i fr, buffers (pool m) !! i = Some fr ->
    get_mut_is_some fr = false /\ usage_count fr <> 0%N.
Proof.
  intros Hn Hcur Hf.
  destruct (fetch_page_err_cases dm m pid NoFreeBuffer m' ios Hf) as
    [Hpt [(_ & -> & Hev & _ & Ht) |
          [(b & fr & ie & _ & _ & _ & _ & He & _) |
           (b & p1 & fr & d1 & pg & ie & ios1 & _ & _ & _ & He & _)]]];
    try discriminate.
  split; [reflexivity|]. split; [exact Ht|]. split; [exact Hpt|].
  exact (evict_none_all_pinned (pool m) (pool m') Hn Hcur Hev).
Qed.

End FetchThenEvict.

Lemma fetch_page_result_not_next_victim_witness :
  held_after ok_disk 0 two_frame_loaded two_frame_hit /\
  match evict (pool two_frame_hit) with
  | EVictim b _ => b <> 0
  | _ => True
  end.
Proof.
  assert (Hh : held_after ok_disk 0 two_frame_loaded two_frame_hit).
  { apply (held_fetch_ok ok_disk 0 two_frame_loaded two_frame_loaded 7 0 two_frame_hit []).
    - apply held_now.
    - vm_compute. reflexivity. }
  split; [exact Hh|].
  apply (fetch_page_result_not_next_victim ok_disk two_frame_fresh 7 0 two_frame_loaded
           [IoRead 7]).
  - apply reach_init. split; [unfold size; simpl; lia|]. split; [reflexivity|].
    split; [reflexivity|].
    intros [|[|i]] fr Hx; simpl in Hx; try discriminate; injection Hx as <-;
      (split; [reflexivity|apply N.le_0_l]).
  - vm_compute. reflexivity.
  - exact Hh.
Defined.

Lemma fetch_page_no_free_buffer_all_pinned_witness :
  exists m' ios, fetch_page ok_disk pinned_pair_manager 5 = FErr NoFreeBuffer m' ios /\
    ios = [] /\ page_table m' = page_table pinned_pair_manager.
Proof.
  assert (Hf : exists m' ios, fetch_page ok_disk pinned_pair_manager 5 = FErr NoFreeBuffer m' ios)
    by (eexists; eexists; vm_compute; reflexivity).
  destruct Hf as (m' & ios & Hf). exists m', ios. split; [exact Hf|].
  destruct (fetch_page_no_free_buffer_all_pinned ok_disk pinned_pair_manager 5 m' ios
              ltac:(vm_compute; lia) ltac:(vm_compute; lia) Hf) as (H1 & H2 & _).
  auto.
Defined.
